(** * recorder-backend: the recording store of [server.js]

    A shallow embedding of the Express handlers of [server.js] (list,
    upload, stream with [Range], delete) together with the small part of
    the JavaScript and Node platform they call: string operations,
    [parseInt], number rendering, [path.basename] / [path.extname], the
    [fs] calls and the [recordings] table.

    JavaScript numbers are modelled as the integers they hold, plus [NaN]
    and the two infinities; file sizes are taken in the range where
    numbers are exact integers (magnitude up to [2^53]).  Where the program
    makes a number of an integer that may lie beyond that range
    ([parseInt], the arithmetic on offsets, [this.lastID]) the rounding to
    the nearest double, and the overflow to an infinity, are written out. *)

From Stdlib Require Import ZArith Lia Ascii Strings.Byte.
From stdpp Require Import base gmap strings list sorting.

Local Open Scope Z_scope.

(** ** JavaScript strings *)

Module JsString.

(** Every character of [s] satisfies [p]. *)
Fixpoint all (p : ascii → bool) (s : string) : bool :=
  match s with
  | EmptyString => true
  | String c r => p c && all p r
  end.

(** [d] is not the character [c]. *)
Definition not_char (c d : ascii) : bool := negb (Ascii.eqb c d).

Definition is_empty (s : string) : bool :=
  match s with EmptyString => true | String _ _ => false end.

(** [ToBoolean] on a string: only the empty string is falsy. *)
Definition truthy (s : string) : bool := negb (is_empty s).

(** [s.slice(n)] for a non-negative [n]. *)
Fixpoint slice_from (n : nat) (s : string) : string :=
  match n, s with
  | O, _ => s
  | S n', String _ r => slice_from n' r
  | S _, EmptyString => EmptyString
  end.

(** [pat] is written at the start of [s]. *)
Fixpoint starts_with (pat s : string) : bool :=
  match pat, s with
  | EmptyString, _ => true
  | String a p, String b r => Ascii.eqb a b && starts_with p r
  | String _ _, EmptyString => false
  end.

(** [s.replace(/pat/, "")] for a pattern without metacharacters: the
    leftmost occurrence of [pat] is removed. *)
Fixpoint remove_first (pat s : string) : string :=
  if starts_with pat s then slice_from (String.length pat) s
  else match s with
       | EmptyString => EmptyString
       | String c r => String c (remove_first pat r)
       end.

(** [s.split(sep)] for a one-character separator. *)
Fixpoint split (sep : ascii) (s : string) : list string :=
  match s with
  | EmptyString => [EmptyString]
  | String c r =>
      if Ascii.eqb c sep then EmptyString :: split sep r
      else match split sep r with
           | h :: t => String c h :: t
           | [] => [String c EmptyString]
           end
  end.

End JsString.

(** ** JavaScript numbers *)

Module JsNumber.

Inductive number : Type :=
| Num (z : Z)
| NaN
| Infinity
| NegInfinity.

Definition MAX_SAFE_INTEGER : Z := 2 ^ 53 - 1.

(** The least magnitude that is read as an infinity: from here on an
    integer is at least as near to [2^1024] as to the largest double,
    [2^1024 - 2^971]. *)
Definition OVERFLOW : Z := 2 ^ 1024 - 2 ^ 970.

(** The double nearest to the integer [z] (ties to the even significand),
    for [z] below [OVERFLOW] in magnitude: integers up to [2^53] are
    doubles, a larger one keeps its 53 leading bits. *)
Definition round_double (z : Z) : Z :=
  let a := Z.abs z in
  if a <=? 2 ^ 53 then z
  else
    let e := Z.log2 a - 52 in
    let q := a / 2 ^ e in
    let r := a mod 2 ^ e in
    let half := 2 ^ (e - 1) in
    let q' := if r <? half then q
              else if half <? r then q + 1
              else if Z.even q then q else q + 1 in
    Z.sgn z * (q' * 2 ^ e).

(** The number that the integer [z] denotes: the nearest double, or an
    infinity. *)
Definition of_integer (z : Z) : number :=
  if OVERFLOW <=? z then Infinity
  else if z <=? - OVERFLOW then NegInfinity
  else Num (round_double z).

(** [a - b] and [a + b] on integral numbers: the exact result, rounded. *)
Definition sub (a b : number) : number :=
  match a, b with
  | Num x, Num y => of_integer (x - y)
  | NaN, _ | _, NaN => NaN
  | Infinity, Infinity | NegInfinity, NegInfinity => NaN
  | Infinity, _ | _, NegInfinity => Infinity
  | NegInfinity, _ | _, Infinity => NegInfinity
  end.

Definition add (a b : number) : number :=
  match a, b with
  | Num x, Num y => of_integer (x + y)
  | NaN, _ | _, NaN => NaN
  | Infinity, NegInfinity | NegInfinity, Infinity => NaN
  | Infinity, _ | _, Infinity => Infinity
  | NegInfinity, _ | _, NegInfinity => NegInfinity
  end.

Definition is_digit (c : ascii) : bool :=
  let n := Z.of_N (N_of_ascii c) in (48 <=? n) && (n <=? 57).

Definition digit_val (c : ascii) : Z := Z.of_N (N_of_ascii c) - 48.

Definition digit_char (d : Z) : ascii := ascii_of_N (Z.to_N (48 + d)).

(** [StrWhiteSpaceChar], within one-byte characters: TAB, LF, VT, FF, CR,
    SP and NBSP. *)
Definition is_space (c : ascii) : bool :=
  let n := Z.of_N (N_of_ascii c) in
  ((9 <=? n) && (n <=? 13)) || (n =? 32) || (n =? 160).

Fixpoint skip_spaces (s : string) : string :=
  match s with
  | String c r => if is_space c then skip_spaces r else s
  | EmptyString => EmptyString
  end.

(** The value of the longest prefix of decimal digits of [s], read after
    the digits whose value is [acc]. *)
Fixpoint parse_digits (s : string) (acc : Z) : Z :=
  match s with
  | String c r => if is_digit c then parse_digits r (10 * acc + digit_val c) else acc
  | EmptyString => acc
  end.

Definition starts_with_digit (s : string) : bool :=
  match s with
  | String c _ => is_digit c
  | EmptyString => false
  end.

(** [parseInt(s, 10)]: leading white space is skipped, an optional sign
    is read, then the longest prefix of digits; no digit gives [NaN], and
    digits beyond the range of doubles give an infinity.  ([-0] is
    identified with [0].) *)
Definition parseInt (s : string) : number :=
  let s1 := skip_spaces s in
  let '(sign, s2) :=
    match s1 with
    | String "-"%char r => (-1, r)
    | String "+"%char r => (1, r)
    | _ => (1, s1)
    end in
  if starts_with_digit s2 then of_integer (sign * parse_digits s2 0) else NaN.

(** Decimal digits of a non-negative integer, most significant first. *)
Fixpoint dec_digits (fuel : nat) (n : Z) : string :=
  match fuel with
  | O => EmptyString
  | S f =>
      if n <? 10 then String (digit_char n) EmptyString
      else dec_digits f (n / 10) +:+ String (digit_char (n mod 10)) EmptyString
  end.

Definition dec (n : Z) : string := dec_digits (S (Z.to_nat (Z.log2 n))) n.

(** [Number.prototype.toString()] and [`${x}`] on the modelled numbers
    (the digits of an integer, which are the digits that JavaScript
    prints up to [2^53] in magnitude). *)
Definition to_string (x : number) : string :=
  match x with
  | NaN => "NaN"
  | Infinity => "Infinity"
  | NegInfinity => "-Infinity"
  | Num z => if z <? 0 then String "-"%char (dec (- z)) else dec z
  end.

(** A digit of radix 36 as [toString(36)] writes it. *)
Definition is_base36 (c : ascii) : bool :=
  let n := Z.of_N (N_of_ascii c) in
  is_digit c || ((97 <=? n) && (n <=? 122)).

(** The shape of [x.toString(36)] for a number [0 <= x < 1]: ["0"], or
    ["0."] followed by at least one digit of radix 36. *)
Definition base36_fraction (r : string) : bool :=
  match r with
  | String "0"%char EmptyString => true
  | String "0"%char (String "."%char ds) => JsString.truthy ds && JsString.all is_base36 ds
  | _ => false
  end.

End JsNumber.

(** ** Node's [path] module (POSIX flavour) *)

Module NodePath.

(** The last non-empty element of [l], or the empty string. *)
Definition last_nonempty (l : list string) : string :=
  fold_left (λ acc s, if JsString.is_empty s then acc else s) l EmptyString.

(** [path.basename(p)]: trailing separators are dropped and the portion
    after the last remaining separator is returned. *)
Definition basename (p : string) : string :=
  last_nonempty (JsString.split "/" p).

(** The suffix of [s] that starts at its last dot, if it has one. *)
Fixpoint from_last_dot (s : string) : option string :=
  match s with
  | EmptyString => None
  | String c r =>
      match from_last_dot r with
      | Some e => Some e
      | None => if Ascii.eqb c "." then Some s else None
      end
  end.

(** [path.extname(p)]: from the last dot of the last portion of [p] to
    its end; empty when there is no dot, when the dot is the first
    character of the portion, or when the portion is [".."]. *)
Definition extname (p : string) : string :=
  let b := basename p in
  match from_last_dot b with
  | None => EmptyString
  | Some e => if String.eqb e b || String.eqb b ".." then EmptyString else e
  end.

(** [path.join(dir, name)] for a normalised [dir] and a plain file name. *)
Definition join (dir name : string) : string := dir +:+ "/" +:+ name.

End NodePath.

(** ** The persistent state: the [recordings] table and the upload directory *)

(** A row of [recordings] without its key. *)
Record Row : Type := {
  filename : string;
  filepath : string;
  filesize : Z;
  createdAt : string
}.

(** [table] maps the INTEGER PRIMARY KEY [id] to its row; [seq] is the
    largest key ever handed out (AUTOINCREMENT); [disk] maps a path to the
    content of the file stored there. *)
Record World : Type := {
  table : gmap Z Row;
  seq : Z;
  disk : gmap string (list byte)
}.

(** What the platform answers that the state above does not determine. *)
Record Env : Type := {
  select_fails : bool;          (* [db.get] / [db.all] hand [err] to the callback *)
  write_fails : bool;           (* [db.run] hands [err] to the callback *)
  unlink_fault : option string; (* errno code with which the OS refuses to unlink an existing file *)
  clock_ms : Z;                 (* [Date.now()] *)
  random36 : string;            (* [Math.random().toString(36)] *)
  db_now : string;              (* CURRENT_TIMESTAMP *)
  iso_now : string              (* [new Date().toISOString()] *)
}.

Inductive result (A : Type) : Type :=
| Ok (a : A)
| Err.
Arguments Ok {A} a.
Arguments Err {A}.

(** ** sqlite3 calls on [recordings] *)

Module Sqlite.

(** [ORDER BY id DESC] *)
Definition id_desc (a b : Z * Row) : Prop := b.1 ≤ a.1.

#[global] Instance id_desc_dec (a b : Z * Row) : Decision (id_desc a b).
Proof. unfold id_desc. apply _. Defined.

(** [SELECT * FROM recordings WHERE id = ?].  The parameter is the text of
    [:id], compared through the INTEGER affinity of the column: [id] is the
    integer it denotes (a text that denotes none selects no row, like a
    key that is absent). *)
Definition get (fails : bool) (id : Z) (w : World) : result (option (Z * Row)) :=
  if fails then Err
  else Ok (match table w !! id with
           | Some r => Some (id, r)
           | None => None
           end).

(** [SELECT id, filename, filepath, filesize, createdAt FROM recordings
    ORDER BY id DESC] *)
Definition all (fails : bool) (w : World) : result (list (Z * Row)) :=
  if fails then Err else Ok (merge_sort id_desc (map_to_list (table w))).

Definition max_id (t : gmap Z Row) : Z :=
  map_fold (λ k _ m, Z.max k m) 0 t.

(** The largest key of a table: a 64-bit signed integer. *)
Definition MAX_ROWID : Z := 2 ^ 63 - 1.

(** [INSERT INTO recordings (filename, filepath, filesize) VALUES (?, ?, ?)].
    AUTOINCREMENT: the new key is one more than the largest key that the
    table holds or has ever held, and the INSERT fails (SQLITE_FULL) once
    the largest possible key has been used.  The answer is [this.lastID],
    the new key as a JavaScript number. *)
Definition insert (fails : bool) (now : string) (name path : string) (size : Z)
    (w : World) : result Z * World :=
  let last := Z.max (seq w) (max_id (table w)) in
  if fails || (MAX_ROWID <=? last) then (Err, w)
  else
    let id := last + 1 in
    let r := {| filename := name; filepath := path; filesize := size; createdAt := now |} in
    (Ok (JsNumber.round_double id),
     {| table := <[id := r]> (table w); seq := id; disk := disk w |}).

(** [DELETE FROM recordings WHERE id = ?] *)
Definition delete_row (fails : bool) (id : Z) (w : World) : result unit * World :=
  if fails then (Err, w)
  else (Ok tt, {| table := delete id (table w); seq := seq w; disk := disk w |}).

End Sqlite.

(** ** Node's [fs] calls *)

Module NodeFs.
Import JsNumber.

Definition existsSync (p : string) (w : World) : bool :=
  bool_decide (is_Some (disk w !! p)).

(** [fs.statSync(p).size]; a missing file raises [ENOENT]. *)
Definition statSync_size (p : string) (w : World) : string + Z :=
  match disk w !! p with
  | Some c => inr (Z.of_nat (length c))
  | None => inl "ENOENT"
  end.

(** [fs.unlink(p, cb)]: the error code handed to [cb], if any, and the
    state afterwards. *)
Definition unlink (fault : option string) (p : string) (w : World)
    : option string * World :=
  match disk w !! p with
  | None => (Some "ENOENT", w)
  | Some _ =>
      match fault with
      | Some code => (Some code, w)
      | None => (None, {| table := table w; seq := seq w; disk := delete p (disk w) |})
      end
  end.

(** A read stream: the path and the inclusive byte interval to read;
    [rs_end = None] reads to the end of the file. *)
Record ReadStream : Type := {
  rs_path : string;
  rs_start : Z;
  rs_end : option Z
}.

(** The check [fs.createReadStream] makes on [start] and on [end]. *)
Definition valid_position (x : number) : bool :=
  match x with
  | Num z => (0 <=? z) && (z <=? MAX_SAFE_INTEGER)
  | _ => false
  end.

(** [fs.createReadStream(p, { start, end })] ([range = None]: no options).
    The constructor of the stream checks its options at once: [start] must
    be an integer of [0 .. MAX_SAFE_INTEGER]; an [end] that is [Infinity]
    is taken as "to the end of the file" without a check; any other [end]
    must be an integer of [0 .. MAX_SAFE_INTEGER] with [start <= end].
    Otherwise the call throws a [RangeError] of code [ERR_OUT_OF_RANGE]
    synchronously, before any byte is read. *)
Definition createReadStream (p : string) (range : option (number * number))
    : string + ReadStream :=
  match range with
  | None => inr {| rs_path := p; rs_start := 0; rs_end := None |}
  | Some (Num s, end_) =>
      if valid_position (Num s) then
        match end_ with
        | Infinity => inr {| rs_path := p; rs_start := s; rs_end := None |}
        | Num e =>
            if valid_position (Num e) && (s <=? e)
            then inr {| rs_path := p; rs_start := s; rs_end := Some e |}
            else inl "ERR_OUT_OF_RANGE"
        | _ => inl "ERR_OUT_OF_RANGE"
        end
      else inl "ERR_OUT_OF_RANGE"
  | Some _ => inl "ERR_OUT_OF_RANGE"
  end.

(** The bytes [c[s .. e]], both ends inclusive, cut at the end of [c]. *)
Definition byte_range (c : list byte) (s e : Z) : list byte :=
  take (Z.to_nat (e - s + 1)) (drop (Z.to_nat s) c).

(** The bytes a stream delivers when piped. *)
Definition stream_bytes (rs : ReadStream) (w : World) : list byte :=
  match disk w !! rs_path rs with
  | None => []
  | Some c =>
      match rs_end rs with
      | None => drop (Z.to_nat (rs_start rs)) c
      | Some e => byte_range c (rs_start rs) e
      end
  end.

End NodeFs.

(** ** The handlers of [server.js] *)

Module Server.
Import JsNumber.

(** A recording as sent to a client. *)
Record RecordingView : Type := {
  rv_id : Z;
  rv_filename : string;
  rv_filepath : string;
  rv_filesize : Z;
  rv_createdAt : string
}.

Inductive Body : Type :=
| JsonError (msg : string)                        (* [{ error: msg }] *)
| JsonMessage (msg : string)                      (* [{ message: msg }] *)
| JsonRecordings (rows : list RecordingView)      (* an array of rows *)
| JsonUploaded (msg : string) (r : RecordingView) (* [{ message, recording }] *)
| Bytes (data : list byte)                        (* a piped stream *)
| ErrorPage (code : string).                      (* the page of Express's own error handler *)

Record Response : Type := {
  status : Z;
  headers : list (string * string);
  body : Body
}.

(** A handler either answers or lets an exception escape. *)
Inductive Outcome : Type :=
| Responded (r : Response)
| Threw (code : string).

Definition json (st : Z) (b : Body) : Outcome :=
  Responded {| status := st; headers := []; body := b |}.

Fixpoint header (name : string) (hs : list (string * string)) : option string :=
  match hs with
  | [] => None
  | (k, v) :: r => if String.eqb k name then Some v else header name r
  end.

(** *** [multer.diskStorage]: the stored file name *)

(** A file sent in an upload request: its name as multer reports it
    ([file.originalname]) and its bytes. *)
Record Upload : Type := {
  originalname : string;
  data : list byte
}.

(** A file part of a multipart body: the name of the form field and the
    file. *)
Record FilePart : Type := {
  fieldname : string;
  file : Upload
}.

(** [path.extname(file.originalname) || ".webm"] *)
Definition storage_ext (original : string) : string :=
  let e := NodePath.extname original in
  if JsString.truthy e then e else ".webm".

(** [`${Date.now()}-${Math.random().toString(36).slice(2)}${ext}`] *)
Definition storage_filename (now : Z) (rnd36 : string) (original : string) : string :=
  to_string (Num now) +:+ "-" +:+ JsString.slice_from 2 rnd36 +:+ storage_ext original.

(** What multer leaves in [req.file]. *)
Record StoredFile : Type := {
  sf_originalname : string;
  sf_filename : string;
  sf_path : string;
  sf_size : Z
}.

Section Upload.
(** [path.join(__dirname, "uploads")] *)
Variable uploadDir : string.

(** What [upload.single("video")] makes of the request. *)
Inductive Multer : Type :=
| NoFile                   (* [req.file] is left undefined *)
| Stored (f : StoredFile)  (* the file is written and described in [req.file] *)
| Refused (code : string). (* a [MulterError] is passed to [next] *)

(** [upload.single("video")] on a request with at most one file part.  A
    part without a file name is skipped; a part of another field than
    ["video"] is refused ([LIMIT_UNEXPECTED_FILE]); the part ["video"] is
    written to [path.join(uploadDir, name)] for the generated [name] (a
    file already there is overwritten) and described in [req.file]. *)
Definition multer_single (env : Env) (part : option FilePart) (w : World)
    : Multer * World :=
  match part with
  | None => (NoFile, w)
  | Some pt =>
      let f := file pt in
      if negb (JsString.truthy (originalname f)) then (NoFile, w)
      else if negb (String.eqb (fieldname pt) "video")
      then (Refused "LIMIT_UNEXPECTED_FILE", w)
      else
        let name := storage_filename (clock_ms env) (random36 env) (originalname f) in
        let p := NodePath.join uploadDir name in
        (Stored {| sf_originalname := originalname f; sf_filename := name;
                   sf_path := p; sf_size := Z.of_nat (length (data f)) |},
         {| table := table w; seq := seq w; disk := <[p := data f]> (disk w) |})
  end.

(** [app.post("/api/recordings", upload.single("video"), ...)].  An error
    of multer does not reach the handler: the application has no error
    handler of its own, so Express answers it with status 500. *)
Definition upload_recording (env : Env) (part : option FilePart) (w : World)
    : Outcome * World :=
  let '(file, w1) := multer_single env part w in
  match file with
  | Refused code => (Responded {| status := 500; headers := []; body := ErrorPage code |}, w1)
  | NoFile => (json 400 (JsonError "No file uploaded"), w1)
  | Stored f =>
      let display :=
        if JsString.truthy (sf_originalname f) then sf_originalname f
        else sf_filename f in
      match Sqlite.insert (write_fails env) (db_now env) display (sf_path f) (sf_size f) w1 with
      | (Err, w2) => (json 500 (JsonError "Failed to save metadata"), w2)
      | (Ok id, w2) =>
          (json 201 (JsonUploaded "Recording uploaded successfully"
             {| rv_id := id; rv_filename := display;
                rv_filepath := NodePath.basename (sf_path f);
                rv_filesize := sf_size f; rv_createdAt := iso_now env |}), w2)
      end
  end.
End Upload.

(** *** Listing *)

(** [{ ...r, filepath: path.basename(r.filepath) }] *)
Definition sanitize (r : Z * Row) : RecordingView :=
  {| rv_id := r.1; rv_filename := filename r.2;
     rv_filepath := NodePath.basename (filepath r.2);
     rv_filesize := filesize r.2; rv_createdAt := createdAt r.2 |}.

(** [app.get("/api/recordings", ...)] *)
Definition list_recordings (env : Env) (w : World) : Outcome * World :=
  match Sqlite.all (select_fails env) w with
  | Err => (json 500 (JsonError "DB error"), w)
  | Ok rows => (json 200 (JsonRecordings (map sanitize rows)), w)
  end.

(** *** Streaming, with [Range] *)

(** [range.replace(/bytes=/, "").split("-")] *)
Definition range_parts (range : string) : list string :=
  JsString.split "-" (JsString.remove_first "bytes=" range).

(** [parseInt(parts[0], 10)] *)
Definition range_start (parts : list string) : number :=
  match parts !! 0%nat with
  | Some p => parseInt p
  | None => NaN
  end.

(** [parts[1] ? parseInt(parts[1], 10) : fileSize - 1] *)
Definition range_end (parts : list string) (fileSize : Z) : number :=
  match parts !! 1%nat with
  | Some p => if JsString.truthy p then parseInt p else Num (fileSize - 1)
  | None => Num (fileSize - 1)
  end.

(** [if (range)]: the header is present and not empty. *)
Definition given (range : option string) : option string :=
  match range with
  | Some r => if JsString.truthy r then Some r else None
  | None => None
  end.

(** [app.get("/api/recordings/:id", ...)]; [range] is [req.headers.range].
    The statements run in the order of the source: the stream is created
    before [res.writeHead], so an exception of [fs.createReadStream] (or of
    [fs.statSync]) escapes the callback with no answer written.  The
    [Content-Type] set by [res.setHeader] is the one [res.writeHead] writes
    again. *)
Definition stream_recording (env : Env) (id : Z) (range : option string) (w : World)
    : Outcome * World :=
  match Sqlite.get (select_fails env) id w with
  | Err => (json 500 (JsonError "DB error"), w)
  | Ok None => (json 404 (JsonError "Recording not found"), w)
  | Ok (Some row) =>
      let absolute := filepath row.2 in
      if negb (NodeFs.existsSync absolute w)
      then (json 404 (JsonError "File missing on server"), w)
      else
        match NodeFs.statSync_size absolute w with
        | inl code => (Threw code, w)
        | inr fileSize =>
            match given range with
            | Some r =>
                let parts := range_parts r in
                let start := range_start parts in
                let end_ := range_end parts fileSize in
                let chunkSize := add (sub end_ start) (Num 1) in
                match NodeFs.createReadStream absolute (Some (start, end_)) with
                | inl code => (Threw code, w)
                | inr file =>
                    (Responded
                       {| status := 206;
                          headers :=
                            [("Content-Range",
                              "bytes " +:+ to_string start +:+ "-" +:+ to_string end_
                                +:+ "/" +:+ to_string (Num fileSize));
                             ("Accept-Ranges", "bytes");
                             ("Content-Length", to_string chunkSize);
                             ("Content-Type", "video/webm")];
                          body := Bytes (NodeFs.stream_bytes file w) |}, w)
                end
            | None =>
                match NodeFs.createReadStream absolute None with
                | inl code => (Threw code, w)
                | inr file =>
                    (Responded
                       {| status := 200;
                          headers :=
                            [("Content-Length", to_string (Num fileSize));
                             ("Content-Type", "video/webm")];
                          body := Bytes (NodeFs.stream_bytes file w) |}, w)
                end
            end
        end
  end.

(** *** Deleting *)

(** [fsErr && fsErr.code !== "ENOENT"] *)
Definition unlink_failed (fsErr : option string) : bool :=
  match fsErr with
  | Some code => negb (String.eqb code "ENOENT")
  | None => false
  end.

(** [app.delete("/api/recordings/:id", ...)]: the row is looked up, the
    file unlinked, and only then the row deleted. *)
Definition delete_recording (env : Env) (id : Z) (w : World) : Outcome * World :=
  match Sqlite.get (select_fails env) id w with
  | Err => (json 500 (JsonError "DB error"), w)
  | Ok None => (json 404 (JsonError "Recording not found"), w)
  | Ok (Some row) =>
      let '(fsErr, w1) := NodeFs.unlink (unlink_fault env) (filepath row.2) w in
      if unlink_failed fsErr
      then (json 500 (JsonError "Failed to delete file"), w1)
      else
        match Sqlite.delete_row (write_fails env) id w1 with
        | (Err, w2) => (json 500 (JsonError "Failed to delete DB record"), w2)
        | (Ok _, w2) => (json 200 (JsonMessage "Deleted"), w2)
        end
  end.

End Server.

(** ** Sample states and answers used below *)

Section Samples.
Import JsNumber NodeFs Server.

(** The 206 answer of the range branch. *)
Definition partial_response (start end_ fileSize : Z) (content : list byte)
    : Response :=
  {| status := 206;
     headers :=
       [("Content-Range",
         "bytes " +:+ to_string (Num start) +:+ "-" +:+ to_string (Num end_)
           +:+ "/" +:+ to_string (Num fileSize));
        ("Accept-Ranges", "bytes");
        ("Content-Length", to_string (Num (end_ - start + 1)));
        ("Content-Type", "video/webm")];
     body := Bytes (byte_range content start end_) |}.

(** A platform on which nothing fails. *)
Definition calm : Env :=
  {| select_fails := false; write_fails := false; unlink_fault := None;
     clock_ms := 1700000000000; random36 := "0.k3j9x0a2b";
     db_now := "2024-01-01 00:00:00"; iso_now := "2024-01-01T00:00:00.000Z" |}.

Definition digits10 : list byte := String.list_byte_of_string "0123456789".

(** One recording of ten bytes, stored under [/srv/uploads]. *)
Definition one_clip : World :=
  {| table := {[ 1 := {| filename := "clip.webm";
                         filepath := "/srv/uploads/1700000000000-k3j9x0a2b.webm";
                         filesize := 10;
                         createdAt := "2024-01-01 00:00:00" |} ]};
     seq := 1;
     disk := {[ "/srv/uploads/1700000000000-k3j9x0a2b.webm" := digits10 ]} |}.

(** Nothing stored yet. *)
Definition nothing_stored : World := {| table := ∅; seq := 0; disk := ∅ |}.

(** The same row after its file was removed from the disk by hand. *)
Definition stale_clip : World :=
  {| table := table one_clip; seq := 1; disk := ∅ |}.

End Samples.

(** ** The invariant of AUTOINCREMENT, and further samples *)

Section MoreSamples.
Import Server.

(** Every key of the table has been handed out: none exceeds [seq]. *)
Definition keys_handed_out (w : World) : Prop :=
  ∀ k row, table w !! k = Some row → k ≤ seq w.

(** The row of [one_clip]. *)
Definition clip_row : Row :=
  {| filename := "clip.webm";
     filepath := "/srv/uploads/1700000000000-k3j9x0a2b.webm";
     filesize := 10;
     createdAt := "2024-01-01 00:00:00" |}.

(** [calm], except for the answers named. *)
Definition select_down : Env :=
  {| select_fails := true; write_fails := false; unlink_fault := None;
     clock_ms := 1700000000000; random36 := "0.k3j9x0a2b";
     db_now := "2024-01-01 00:00:00"; iso_now := "2024-01-01T00:00:00.000Z" |}.

Definition write_down : Env :=
  {| select_fails := false; write_fails := true; unlink_fault := None;
     clock_ms := 1700000000000; random36 := "0.k3j9x0a2b";
     db_now := "2024-01-01 00:00:00"; iso_now := "2024-01-01T00:00:00.000Z" |}.

(** A later moment on a platform on which nothing fails. *)
Definition later : Env :=
  {| select_fails := false; write_fails := false; unlink_fault := None;
     clock_ms := 1700000000321; random36 := "0.zq81m4c7";
     db_now := "2024-01-01 00:05:21"; iso_now := "2024-01-01T00:05:21.000Z" |}.

(** The id that the next INSERT hands out. *)
Definition next_id (w : World) : Z :=
  Z.max (seq w) (Sqlite.max_id (table w)) + 1.

(** The name under which the part [f] is stored on the platform [env]. *)
Definition stored_name (env : Env) (f : Upload) : string :=
  storage_filename (clock_ms env) (random36 env) (originalname f).

(** The row that a successful upload of [f] inserts. *)
Definition stored_row (dir : string) (env : Env) (f : Upload) : Row :=
  {| filename := if JsString.truthy (originalname f) then originalname f
                 else stored_name env f;
     filepath := NodePath.join dir (stored_name env f);
     filesize := Z.of_nat (length (data f));
     createdAt := db_now env |}.

(** A second file to upload. *)
Definition other_part : Upload :=
  {| originalname := "take2.webm"; data := String.list_byte_of_string "abc" |}.

(** The file [f] sent in the field ["video"]. *)
Definition video (f : Upload) : FilePart := {| fieldname := "video"; file := f |}.

(** The request carries a file that [upload.single("video")] stores: it
    is sent in the field ["video"] and has a file name. *)
Definition stored_by_multer (pt : FilePart) : Prop :=
  fieldname pt = "video" ∧ JsString.truthy (originalname (file pt)) = true.

End MoreSamples.

(** ** The routes *)

(** A request to one of the routes on [/api/recordings], with what its
    handler looks at: the file part, the id, the [Range] header. *)
Inductive Request : Type :=
| GetRecordings
| PostRecording (part : option Server.FilePart)
| GetRecording (id : Z) (range : option string)
| DeleteRecording (id : Z).

Section Routes.
Import Server.

Variable uploadDir : string.

(** [app.get], [app.post] and [app.delete]: the handler of each route. *)
Definition handle (env : Env) (rq : Request) (w : World) : Outcome * World :=
  match rq with
  | GetRecordings => list_recordings env w
  | PostRecording part => upload_recording uploadDir env part w
  | GetRecording id range => stream_recording env id range w
  | DeleteRecording id => delete_recording env id w
  end.

(** The state after a sequence of requests, each served on the platform
    answers paired with it.  The table and the disk outlive the process, so
    the run goes on from the same state after a handler that threw. *)
Fixpoint run (steps : list (Env * Request)) (w : World) : World :=
  match steps with
  | [] => w
  | (env, rq) :: rest => run rest (handle env rq w).2
  end.

End Routes.


(** * Facts about the platform model *)

#[local] Arguments String.append !s1 s2 : simpl nomatch.

Section StringFacts.
Import JsString.

Lemma all_app p a b : all p (a +:+ b) = all p a && all p b.
Proof.
  induction a as [|c a IH]; simpl; [reflexivity|].
  rewrite IH. apply andb_assoc.
Qed.

Lemma all_impl (p q : ascii → bool) s :
  (∀ c, p c = true → q c = true) → all p s = true → all q s = true.
Proof.
  intros Hpq. induction s as [|c s IH]; simpl; [reflexivity|].
  intros [Hc Hs]%andb_true_iff. rewrite (Hpq c Hc). simpl. exact (IH Hs).
Qed.

Lemma append_assoc (a b c : string) : (a +:+ b) +:+ c = a +:+ (b +:+ c).
Proof. induction a as [|x a IH]; simpl; [reflexivity|]. f_equal. exact IH. Qed.

Lemma append_empty_r (a : string) : a +:+ EmptyString = a.
Proof. induction a as [|x a IH]; simpl; [reflexivity|]. f_equal. exact IH. Qed.

Lemma split_not_nil sep s : split sep s ≠ [].
Proof.
  destruct s as [|c s]; simpl; [discriminate|].
  destruct (Ascii.eqb c sep); [discriminate|].
  destruct (split sep s); discriminate.
Qed.

(** A string free of the separator is the only part of its split. *)
Lemma split_no_sep sep s : all (not_char sep) s = true → split sep s = [s].
Proof.
  induction s as [|c s IH]; simpl; [reflexivity|].
  unfold not_char at 1. rewrite Ascii.eqb_sym.
  intros [Hc Hs]%andb_true_iff. apply negb_true_iff in Hc. rewrite Hc.
  now rewrite (IH Hs).
Qed.

(** Splitting at a separator that is written out. *)
Lemma split_app sep a b :
  split sep (a +:+ String sep b) = removelast (split sep a) ++
    [List.last (split sep a) EmptyString] ++ split sep b.
Proof.
  induction a as [|c a IH]; simpl.
  - now rewrite Ascii.eqb_refl.
  - destruct (Ascii.eqb c sep) eqn:E.
    + rewrite IH. pose proof (split_not_nil sep a).
      destruct (split sep a) eqn:Ea; [congruence|]. reflexivity.
    + rewrite IH. pose proof (split_not_nil sep a).
      destruct (split sep a) as [|h t] eqn:Ea; [congruence|].
      destruct t; reflexivity.
Qed.

Lemma split_app_no_sep sep a b :
  all (not_char sep) a = true → split sep (a +:+ String sep b) = a :: split sep b.
Proof.
  intros Ha. rewrite split_app, (split_no_sep _ _ Ha). reflexivity.
Qed.

(** No part of a split contains the separator. *)
Lemma split_parts_free sep s :
  Forall (λ p, all (not_char sep) p = true) (split sep s).
Proof.
  induction s as [|c s IH]; simpl.
  - repeat constructor.
  - destruct (Ascii.eqb c sep) eqn:E.
    + constructor; [reflexivity | exact IH].
    + assert (Hc : not_char sep c = true).
      { unfold not_char. now rewrite Ascii.eqb_sym, E. }
      destruct (split sep s) as [|h t]; inversion IH; subst;
        constructor; simpl; rewrite ?Hc; auto.
Qed.

(** The text before the first separator, and the text after it, are
    determined by the whole. *)
Lemma app_sep_inj sep a1 b1 a2 b2 :
  all (not_char sep) a1 = true → all (not_char sep) a2 = true →
  a1 +:+ String sep b1 = a2 +:+ String sep b2 → a1 = a2 ∧ b1 = b2.
Proof.
  revert a2. induction a1 as [|c a1 IH]; intros [|d a2]; simpl.
  - intros _ _ [= ->]. now split.
  - unfold not_char at 1. intros _ [Hd _]%andb_true_iff [= <- _].
    now rewrite Ascii.eqb_refl in Hd.
  - unfold not_char at 1. intros [Hc _]%andb_true_iff _ [= -> _].
    now rewrite Ascii.eqb_refl in Hc.
  - intros [_ H1]%andb_true_iff [_ H2]%andb_true_iff [= -> E].
    destruct (IH a2 H1 H2 E) as [-> ->]. now split.
Qed.

End StringFacts.

Section NumberFacts.
Import JsString JsNumber.

Lemma digit_char_spec d :
  0 ≤ d < 10 → is_digit (digit_char d) = true ∧ digit_val (digit_char d) = d.
Proof.
  intros H.
  assert (E : d = 0 ∨ d = 1 ∨ d = 2 ∨ d = 3 ∨ d = 4 ∨ d = 5 ∨ d = 6 ∨ d = 7
              ∨ d = 8 ∨ d = 9) by lia.
  repeat (destruct E as [-> | E]; [split; reflexivity|]).
  subst d. split; reflexivity.
Qed.

(** A digit is neither white space nor a sign, nor a separator of the
    headers and file names built below. *)
Lemma digit_plain c :
  is_digit c = true →
  is_space c = false ∧ c ≠ "-"%char ∧ c ≠ "+"%char ∧ not_char "-" c = true.
Proof.
  destruct c as [[] [] [] [] [] [] [] []]; intros H; try discriminate H;
    repeat split; discriminate.
Qed.

Lemma parseInt_digit_head s :
  starts_with_digit s = true → parseInt s = of_integer (parse_digits s 0).
Proof.
  destruct s as [|c r]; [discriminate|]. intros H. simpl in H.
  destruct (digit_plain c H) as (Hs & Hm & Hp & _).
  unfold parseInt. simpl skip_spaces. rewrite Hs.
  assert (E : match String c r with
              | String "-"%char r' => (-1, r')
              | String "+"%char r' => (1, r')
              | _ => (1, String c r)
              end = (1, String c r)).
  { clear - Hm Hp.
    destruct c as [[] [] [] [] [] [] [] []]; try reflexivity; congruence. }
  rewrite E. simpl starts_with_digit. rewrite H. now rewrite Z.mul_1_l.
Qed.

Lemma parse_digits_app a b acc :
  all is_digit a = true →
  parse_digits (a +:+ b) acc = parse_digits b (parse_digits a acc).
Proof.
  revert acc. induction a as [|c a IH]; intros acc; simpl; [reflexivity|].
  intros [Hc Ha]%andb_true_iff. rewrite Hc. apply IH, Ha.
Qed.

(** With enough fuel the digits of [n] are digits, there is at least one,
    and they read back as [n]. *)
Lemma dec_digits_spec f n :
  (0 < f)%nat → 0 ≤ n < 2 ^ Z.of_nat f →
  all is_digit (dec_digits f n) = true ∧
  starts_with_digit (dec_digits f n) = true ∧
  parse_digits (dec_digits f n) 0 = n.
Proof.
  revert n. induction f as [|f IH]; intros n Hf Hn; [lia|].
  simpl dec_digits. destruct (Z.ltb_spec n 10) as [Hlt | Hge].
  - destruct (digit_char_spec n) as [Hd Hv]; [lia|].
    simpl. rewrite Hd, Hv. repeat split; lia.
  - assert (Hq : 1 ≤ n / 10) by (apply Z.div_le_lower_bound; lia).
    assert (Hq2 : n / 10 < 2 ^ Z.of_nat f).
    { apply Z.div_lt_upper_bound; [lia|].
      replace (Z.of_nat (S f)) with (Z.succ (Z.of_nat f)) in Hn by lia.
      rewrite Z.pow_succ_r in Hn by lia. lia. }
    assert (Hf' : (0 < f)%nat).
    { destruct f; [simpl in Hq2; lia | lia]. }
    destruct (IH (n / 10) Hf' ltac:(lia)) as (Ha & Hs & Hp).
    destruct (digit_char_spec (n mod 10)) as [Hd Hv].
    { apply Z.mod_pos_bound. lia. }
    split; [|split].
    + rewrite all_app, Ha. simpl. now rewrite Hd.
    + destruct (dec_digits f (n / 10)); [discriminate | exact Hs].
    + rewrite parse_digits_app by exact Ha. rewrite Hp. simpl.
      rewrite Hd, Hv. pose proof (Z.div_mod n 10). lia.
Qed.

Lemma dec_spec n :
  0 ≤ n →
  all is_digit (dec n) = true ∧ starts_with_digit (dec n) = true ∧
  parse_digits (dec n) 0 = n.
Proof.
  intros Hn. apply dec_digits_spec; [lia|].
  destruct (Z.eq_dec n 0) as [-> | Hne]; [simpl; lia|].
  rewrite Nat2Z.inj_succ, Z2Nat.id by apply Z.log2_nonneg.
  pose proof (Z.log2_spec n ltac:(lia)). lia.
Qed.

Lemma to_string_nonneg n : 0 ≤ n → to_string (Num n) = dec n.
Proof.
  intros Hn. unfold to_string. destruct (Z.ltb_spec n 0); [lia | reflexivity].
Qed.

Lemma safe_below_overflow : MAX_SAFE_INTEGER < OVERFLOW.
Proof. vm_compute. reflexivity. Qed.

Lemma round_double_safe z : - 2 ^ 53 ≤ z ≤ 2 ^ 53 → round_double z = z.
Proof.
  intros Hz. unfold round_double.
  destruct (Z.leb_spec (Z.abs z) (2 ^ 53)); [reflexivity | lia].
Qed.

(** Rounding does not bring an integer above [2^53] back below it. *)
Lemma round_double_large z : 2 ^ 53 < z → 2 ^ 53 ≤ round_double z.
Proof.
  intros Hz. unfold round_double.
  destruct (Z.leb_spec (Z.abs z) (2 ^ 53)); [lia|].
  rewrite (Z.abs_eq z) by lia. rewrite (Z.sgn_pos z) by lia.
  pose proof (Z.log2_le_mono (2 ^ 53) z ltac:(lia)) as Hl.
  rewrite Z.log2_pow2 in Hl by lia.
  pose proof (Z.log2_spec z ltac:(lia)) as [Hlo _].
  replace (Z.log2 z) with (52 + (Z.log2 z - 52)) in Hlo at 1 by lia.
  assert (He : 1 ≤ Z.log2 z - 52) by lia.
  generalize dependent (Z.log2 z - 52). intros e Hlo He.
  rewrite Z.pow_add_r in Hlo by lia.
  assert (Hpos : 0 < 2 ^ e) by (apply Z.pow_pos_nonneg; lia).
  assert (Hq : 2 ^ 52 ≤ z / 2 ^ e).
  { apply Z.div_le_lower_bound; lia. }
  assert (Hq' : 2 ^ 52 ≤
    (if z mod 2 ^ e <? 2 ^ (e - 1) then z / 2 ^ e
     else if 2 ^ (e - 1) <? z mod 2 ^ e then z / 2 ^ e + 1
     else if Z.even (z / 2 ^ e) then z / 2 ^ e else z / 2 ^ e + 1)).
  { repeat case_match; lia. }
  revert Hq'. generalize (if z mod 2 ^ e <? 2 ^ (e - 1) then z / 2 ^ e
     else if 2 ^ (e - 1) <? z mod 2 ^ e then z / 2 ^ e + 1
     else if Z.even (z / 2 ^ e) then z / 2 ^ e else z / 2 ^ e + 1).
  intros q' Hq'.
  assert (2 ^ 52 * 2 ^ 1 ≤ q' * 2 ^ e).
  { apply Z.mul_le_mono_nonneg; try lia.
    apply Z.pow_le_mono_r; lia. }
  change (2 ^ 53) with (2 ^ 52 * 2 ^ 1). lia.
Qed.

Lemma of_integer_finite z : - 2 ^ 53 ≤ z ≤ 2 ^ 53 → of_integer z = Num z.
Proof.
  intros Hz. unfold of_integer.
  assert (2 ^ 53 < OVERFLOW) by (vm_compute; reflexivity).
  destruct (Z.leb_spec OVERFLOW z); [lia|].
  destruct (Z.leb_spec z (- OVERFLOW)); [lia|].
  now rewrite round_double_safe.
Qed.

(** An integer above the safe ones denotes no safe integer. *)
Lemma of_integer_unsafe z :
  MAX_SAFE_INTEGER < z →
  of_integer z = Infinity ∨ ∃ k, of_integer z = Num k ∧ MAX_SAFE_INTEGER < k.
Proof.
  intros Hz. unfold of_integer.
  destruct (Z.leb_spec OVERFLOW z); [now left|].
  assert (0 < OVERFLOW) by (vm_compute; reflexivity).
  destruct (Z.leb_spec z (- OVERFLOW)); [unfold MAX_SAFE_INTEGER in Hz; lia|].
  right. eexists. split; [reflexivity|].
  unfold MAX_SAFE_INTEGER in *.
  destruct (Z.eq_dec z (2 ^ 53)) as [->|Hne].
  - rewrite round_double_safe by lia. lia.
  - pose proof (round_double_large z ltac:(lia)). lia.
Qed.

Lemma of_integer_overflow z : OVERFLOW ≤ z → of_integer z = Infinity.
Proof.
  intros Hz. unfold of_integer. destruct (Z.leb_spec OVERFLOW z); [reflexivity | lia].
Qed.

(** [end - start + 1] on safe offsets is exact. *)
Lemma chunk_size_safe s e :
  0 ≤ s ≤ e → e ≤ MAX_SAFE_INTEGER →
  add (sub (Num e) (Num s)) (Num 1) = Num (e - s + 1).
Proof.
  intros Hse Hmax. unfold MAX_SAFE_INTEGER in Hmax. unfold sub.
  rewrite of_integer_finite by lia. unfold add.
  apply of_integer_finite. lia.
Qed.

(** [parseInt] of the decimal digits of [n]: the double nearest to [n], or
    [Infinity] from [OVERFLOW] on. *)
Lemma parseInt_dec_any n : 0 ≤ n → parseInt (dec n) = of_integer n.
Proof.
  intros Hn. destruct (dec_spec n Hn) as (_ & Hs & Hp).
  rewrite parseInt_digit_head by exact Hs. now rewrite Hp.
Qed.

(** [parseInt] reads back what [to_string] wrote. *)
Lemma parseInt_dec n : 0 ≤ n → n ≤ MAX_SAFE_INTEGER → parseInt (dec n) = Num n.
Proof.
  intros Hn Hmax. rewrite parseInt_dec_any by exact Hn.
  apply of_integer_finite. unfold MAX_SAFE_INTEGER in Hmax. lia.
Qed.

Lemma dec_no_dash n : 0 ≤ n → all (not_char "-") (dec n) = true.
Proof.
  intros Hn. destruct (dec_spec n Hn) as (Ha & _).
  revert Ha. apply all_impl. intros c Hc. apply (digit_plain c Hc).
Qed.

Lemma dec_truthy n : 0 ≤ n → truthy (dec n) = true.
Proof.
  intros Hn. destruct (dec_spec n Hn) as (_ & Hs & _).
  destruct (dec n); [discriminate | reflexivity].
Qed.

Lemma dec_inj a b : 0 ≤ a → 0 ≤ b → dec a = dec b → a = b.
Proof.
  intros Ha Hb E. destruct (dec_spec a Ha) as (_ & _ & Pa).
  destruct (dec_spec b Hb) as (_ & _ & Pb). rewrite E in Pa. lia.
Qed.

End NumberFacts.

Section PathFacts.
Import JsString NodePath.

Lemma last_nonempty_from (l : list string) (acc : string) :
  let r := fold_left (λ a s, if is_empty s then a else s) l acc in
  r = acc ∨ (r ∈ l ∧ is_empty r = false).
Proof.
  revert acc. induction l as [|x l IH]; intros acc; simpl; [now left|].
  destruct (IH (if is_empty x then acc else x)) as [E | [E1 E2]].
  - destruct (is_empty x) eqn:Ex; [now left|].
    right. rewrite E. split; [apply list_elem_of_here | exact Ex].
  - right. split; [now apply list_elem_of_further | exact E2].
Qed.

(** A base name never contains a separator. *)
Lemma basename_no_slash p : all (not_char "/") (basename p) = true.
Proof.
  unfold basename, last_nonempty.
  destruct (last_nonempty_from (split "/" p) EmptyString) as [-> | [Hin _]];
    [reflexivity|].
  pose proof (split_parts_free "/" p) as Hall.
  rewrite Forall_forall in Hall. apply Hall, Hin.
Qed.

(** The base name of a file placed in a directory is the file's name. *)
Lemma basename_join dir name :
  truthy name = true → all (not_char "/") name = true →
  basename (join dir name) = name.
Proof.
  intros Hne Hfree. unfold basename, join, last_nonempty.
  change ("/" +:+ name) with (String "/" name).
  rewrite split_app, (split_no_sep _ _ Hfree), !fold_left_app. simpl.
  destruct name; [discriminate | reflexivity].
Qed.

Lemma from_last_dot_head s e :
  from_last_dot s = Some e → ∃ r, e = String "." r.
Proof.
  induction s as [|c s IH]; simpl; [discriminate|].
  destruct (from_last_dot s) as [e'|].
  - intros [= <-]. now apply IH.
  - destruct (Ascii.eqb_spec c "."); [|discriminate].
    intros [= <-]. subst c. now exists s.
Qed.

(** An extension is empty or starts with a dot. *)
Lemma extname_head p : extname p = EmptyString ∨ ∃ r, extname p = String "." r.
Proof.
  unfold extname. destruct (from_last_dot (basename p)) as [e|] eqn:E; [|now left].
  destruct (_ || _); [now left|]. right. eapply from_last_dot_head, E.
Qed.

Lemma storage_ext_head original : ∃ r, Server.storage_ext original = String "." r.
Proof.
  unfold Server.storage_ext.
  destruct (extname_head original) as [-> | [r ->]]; simpl; eauto.
Qed.

End PathFacts.

(** * Facts about the handlers *)

(** Entering a handler whose lookup finds the row. *)
Ltac found_row Hsel Hrow :=
  repeat first [ progress unfold Server.stream_recording
               | progress unfold Server.delete_recording
               | progress unfold Sqlite.get ];
  rewrite Hsel, Hrow; cbn [snd].

(** ... and whose file is on the disk. *)
Ltac found_file Hsel Hrow Hfile :=
  found_row Hsel Hrow;
  unfold NodeFs.existsSync, NodeFs.statSync_size; rewrite Hfile;
  rewrite bool_decide_eq_true_2 by eauto; cbn [negb].

Section StreamFacts.
Import JsString JsNumber NodeFs Server.

Lemma remove_first_bytes s : remove_first "bytes=" ("bytes=" +:+ s) = s.
Proof. reflexivity. Qed.

(** The parts of [bytes=<s>-<e>] for strings free of ["-"]. *)
Lemma range_parts_pair a b :
  all (not_char "-") a = true → all (not_char "-") b = true →
  range_parts ("bytes=" +:+ a +:+ "-" +:+ b) = [a; b].
Proof.
  intros Ha Hb. unfold range_parts. rewrite remove_first_bytes.
  change ("-" +:+ b) with (String "-" b).
  rewrite split_app_no_sep by exact Ha. now rewrite split_no_sep by exact Hb.
Qed.

(** The range branch, once the header has been read as [start] and [end]:
    offsets that pass the stream's check give the 206 answer. *)
Lemma stream_range_ok env w id row content r s e :
  select_fails env = false →
  table w !! id = Some row →
  disk w !! filepath row = Some content →
  given (Some r) = Some r →
  range_start (range_parts r) = Num s →
  range_end (range_parts r) (Z.of_nat (length content)) = Num e →
  0 ≤ s ≤ e → e ≤ MAX_SAFE_INTEGER →
  stream_recording env id (Some r) w =
    (Responded (partial_response s e (Z.of_nat (length content)) content), w).
Proof.
  intros Hsel Hrow Hfile Hgiven Hs He Hse Hmax.
  found_file Hsel Hrow Hfile.
  rewrite Hgiven. cbv zeta. rewrite Hs, He.
  rewrite chunk_size_safe by lia.
  unfold createReadStream, valid_position.
  rewrite !Zle_imp_le_bool by lia.
  simpl. unfold stream_bytes. simpl. rewrite Hfile. reflexivity.
Qed.

(** Offsets that fail the stream's check: the constructor throws before
    [res.writeHead] is reached. *)
Lemma stream_range_throws env w id row content r :
  select_fails env = false →
  table w !! id = Some row →
  disk w !! filepath row = Some content →
  given (Some r) = Some r →
  createReadStream (filepath row)
    (Some (range_start (range_parts r),
           range_end (range_parts r) (Z.of_nat (length content))))
    = inl "ERR_OUT_OF_RANGE" →
  stream_recording env id (Some r) w = (Threw "ERR_OUT_OF_RANGE", w).
Proof.
  intros Hsel Hrow Hfile Hgiven Hcreate.
  found_file Hsel Hrow Hfile.
  rewrite Hgiven. cbv zeta. rewrite Hcreate. reflexivity.
Qed.

(** The slice read by a stream over [s .. e] that lies inside the file. *)
Lemma byte_range_inside (c : list byte) s e :
  0 ≤ s ≤ e → e < Z.of_nat (length c) →
  Z.of_nat (length (byte_range c s e)) = e - s + 1 ∧
  ∀ i, 0 ≤ i ≤ e - s →
    byte_range c s e !! Z.to_nat i = c !! Z.to_nat (s + i).
Proof.
  intros Hse He. unfold byte_range. split.
  - rewrite length_take, length_drop. lia.
  - intros i Hi. rewrite lookup_take_lt by lia. rewrite lookup_drop.
    f_equal. lia.
Qed.

End StreamFacts.

(** * The properties of the specification *)

Section RangeClaims.
Import JsString JsNumber NodeFs Server.

(** The scenario of the specification: ten bytes are ingested, the list
    shows one row of size 10, and [bytes=2-5] is answered 206 with the
    four bytes "2345" and [Content-Range: bytes 2-5/10]. *)
Example ingest_list_range_scenario :
  upload_recording "/srv/uploads" calm
    (Some (video {| originalname := "clip.webm"; data := digits10 |})) nothing_stored
    = (json 201 (JsonUploaded "Recording uploaded successfully"
         {| rv_id := 1; rv_filename := "clip.webm";
            rv_filepath := "1700000000000-k3j9x0a2b.webm";
            rv_filesize := 10; rv_createdAt := "2024-01-01T00:00:00.000Z" |}),
       one_clip) ∧
  list_recordings calm one_clip
    = (json 200 (JsonRecordings
         [{| rv_id := 1; rv_filename := "clip.webm";
             rv_filepath := "1700000000000-k3j9x0a2b.webm";
             rv_filesize := 10; rv_createdAt := "2024-01-01 00:00:00" |}]),
       one_clip) ∧
  stream_recording calm 1 (Some "bytes=2-5") one_clip
    = (Responded
         {| status := 206;
            headers := [("Content-Range", "bytes 2-5/10");
                        ("Accept-Ranges", "bytes");
                        ("Content-Length", "4");
                        ("Content-Type", "video/webm")];
            body := Bytes (String.list_byte_of_string "2345") |},
       one_clip).
Proof. repeat split; vm_compute; reflexivity. Qed.

(** C1 (range law).  For a stored recording whose file holds [content]
    and integers [0 <= start <= end < length content], retrieving with the
    header [bytes=start-end] answers 206 with the bytes [start .. end] of
    the content ([end - start + 1] of them), [Content-Length] equal to
    [end - start + 1] and [Content-Range] equal to
    [bytes start-end/length content].  File sizes are JavaScript numbers,
    hence at most [MAX_SAFE_INTEGER]. *)
Theorem stream_range_law env w id row content start end_ :
  select_fails env = false →
  table w !! id = Some row →
  disk w !! filepath row = Some content →
  Z.of_nat (length content) ≤ MAX_SAFE_INTEGER →
  0 ≤ start ≤ end_ → end_ < Z.of_nat (length content) →
  ∃ r data,
    stream_recording env id
      (Some ("bytes=" +:+ to_string (Num start) +:+ "-" +:+ to_string (Num end_))) w
      = (Responded r, w) ∧
    status r = 206 ∧
    body r = Bytes data ∧
    Z.of_nat (length data) = end_ - start + 1 ∧
    (∀ i, 0 ≤ i ≤ end_ - start →
       data !! Z.to_nat i = content !! Z.to_nat (start + i)) ∧
    header "Content-Length" (headers r) = Some (to_string (Num (end_ - start + 1))) ∧
    header "Content-Range" (headers r) =
      Some ("bytes " +:+ to_string (Num start) +:+ "-" +:+ to_string (Num end_)
              +:+ "/" +:+ to_string (Num (Z.of_nat (length content)))).
Proof.
  intros Hsel Hrow Hfile Hmax Hse He.
  destruct (byte_range_inside content start end_ Hse He) as [Hlen Hnth].
  exists (partial_response start end_ (Z.of_nat (length content)) content),
    (byte_range content start end_).
  split; [|repeat split; assumption].
  rewrite !to_string_nonneg by lia.
  apply (stream_range_ok env w id row); try assumption; try lia.
  - reflexivity.
  - rewrite range_parts_pair by (apply dec_no_dash; lia).
    apply parseInt_dec; lia.
  - rewrite range_parts_pair by (apply dec_no_dash; lia).
    unfold range_end. simpl lookup. cbv iota. rewrite dec_truthy by lia.
    apply parseInt_dec; lia.
Qed.

Lemma stream_range_law_witness :
  ∃ r data,
    stream_recording calm 1 (Some "bytes=2-5") one_clip = (Responded r, one_clip) ∧
    status r = 206 ∧
    body r = Bytes data ∧
    Z.of_nat (length data) = 4 ∧
    (∀ i, 0 ≤ i ≤ 3 → data !! Z.to_nat i = digits10 !! Z.to_nat (2 + i)) ∧
    header "Content-Length" (headers r) = Some "4" ∧
    header "Content-Range" (headers r) = Some "bytes 2-5/10".
Proof.
  apply (stream_range_law calm one_clip 1
           {| filename := "clip.webm";
              filepath := "/srv/uploads/1700000000000-k3j9x0a2b.webm";
              filesize := 10;
              createdAt := "2024-01-01 00:00:00" |} digits10 2 5).
  - reflexivity.
  - vm_compute. reflexivity.
  - vm_compute. reflexivity.
  - unfold MAX_SAFE_INTEGER. simpl. lia.
  - lia.
  - simpl. lia.
Defined.


(** No branch of the stream handler answers 416. *)
Lemma stream_never_416 env id range w r w' :
  stream_recording env id range w = (Responded r, w') → status r ≠ 416.
Proof.
  unfold stream_recording, json.
  repeat case_match; intros [= <- _]; simpl; discriminate.
Qed.

(** C2 (a defect of the code).  The claim expects a 206 with the parsed
    offsets also when [start > end].  For [bytes=5-2] on a file of ten
    bytes the header is read as start 5 and end 2, as the claim says, but no
    206 is produced, and nothing else is answered either: the stream
    constructor throws before the response head is written, out of a
    callback that catches nothing. *)
Theorem reversed_range_is_not_answered :
  range_start (range_parts "bytes=5-2") = Num 5 ∧
  range_end (range_parts "bytes=5-2") 10 = Num 2 ∧
  stream_recording calm 1 (Some "bytes=5-2") one_clip
    = (Threw "ERR_OUT_OF_RANGE", one_clip) ∧
  ¬ ∃ r w', stream_recording calm 1 (Some "bytes=5-2") one_clip = (Responded r, w') ∧
            status r = 206.
Proof.
  assert (E : stream_recording calm 1 (Some "bytes=5-2") one_clip
              = (Threw "ERR_OUT_OF_RANGE", one_clip)) by (vm_compute; reflexivity).
  repeat split; try reflexivity; try exact E.
  intros (r & w' & H & _). rewrite E in H. discriminate H.
Qed.

(** X22.  The handler checks nothing beyond parsing: for a header
    [bytes=start-end] with [start <= end] (and [end] a safe integer),
    whatever the size of the file, also when [start] or [end] lie beyond
    it, the answer is 206 with exactly the parsed [start] and [end] and
    the length [end - start + 1]; and no request at all is answered 416. *)
Theorem unchecked_range env w id row content start end_ :
  select_fails env = false →
  table w !! id = Some row →
  disk w !! filepath row = Some content →
  0 ≤ start ≤ end_ → end_ ≤ MAX_SAFE_INTEGER →
  let hdr := "bytes=" +:+ to_string (Num start) +:+ "-" +:+ to_string (Num end_) in
  range_start (range_parts hdr) = Num start ∧
  range_end (range_parts hdr) (Z.of_nat (length content)) = Num end_ ∧
  (∃ r,
     stream_recording env id (Some hdr) w = (Responded r, w) ∧
     status r = 206 ∧
     body r = Bytes (byte_range content start end_) ∧
     header "Content-Length" (headers r) = Some (to_string (Num (end_ - start + 1))) ∧
     header "Content-Range" (headers r) =
       Some ("bytes " +:+ to_string (Num start) +:+ "-" +:+ to_string (Num end_)
               +:+ "/" +:+ to_string (Num (Z.of_nat (length content))))) ∧
  (∀ range r w', stream_recording env id range w = (Responded r, w') → status r ≠ 416).
Proof.
  intros Hsel Hrow Hfile Hse Hmax hdr. subst hdr.
  rewrite !to_string_nonneg by lia.
  assert (Hs : range_start (range_parts ("bytes=" +:+ dec start +:+ "-" +:+ dec end_))
               = Num start).
  { rewrite range_parts_pair by (apply dec_no_dash; lia). apply parseInt_dec; lia. }
  assert (He : range_end (range_parts ("bytes=" +:+ dec start +:+ "-" +:+ dec end_))
                 (Z.of_nat (length content)) = Num end_).
  { rewrite range_parts_pair by (apply dec_no_dash; lia).
    unfold range_end. simpl lookup. cbv iota. rewrite dec_truthy by lia.
    apply parseInt_dec; lia. }
  split; [exact Hs|]. split; [exact He|]. split.
  - exists (partial_response start end_ (Z.of_nat (length content)) content).
    split; [|rewrite <- !to_string_nonneg by lia; repeat split; reflexivity].
    now apply (stream_range_ok env w id row).
  - intros range r w'. apply stream_never_416.
Qed.

Lemma unchecked_range_witness :
  range_start (range_parts "bytes=20-30") = Num 20 ∧
  range_end (range_parts "bytes=20-30") 10 = Num 30 ∧
  (∃ r,
     stream_recording calm 1 (Some "bytes=20-30") one_clip = (Responded r, one_clip) ∧
     status r = 206 ∧
     body r = Bytes [] ∧
     header "Content-Length" (headers r) = Some "11" ∧
     header "Content-Range" (headers r) = Some "bytes 20-30/10") ∧
  (∀ range r w',
     stream_recording calm 1 range one_clip = (Responded r, w') → status r ≠ 416).
Proof.
  apply (unchecked_range calm one_clip 1
           {| filename := "clip.webm";
              filepath := "/srv/uploads/1700000000000-k3j9x0a2b.webm";
              filesize := 10;
              createdAt := "2024-01-01 00:00:00" |} digits10 20 30).
  - reflexivity.
  - vm_compute. reflexivity.
  - vm_compute. reflexivity.
  - lia.
  - unfold MAX_SAFE_INTEGER. simpl. lia.
Defined.

(** C4 (omitted end).  For a header [bytes=N-] with [0 <= N < length
    content] the interval is read as start [N] and end [length content - 1],
    and the answer carries the bytes from offset [N] to the end of the
    file. *)
Theorem stream_open_ended_range env w id row content n :
  select_fails env = false →
  table w !! id = Some row →
  disk w !! filepath row = Some content →
  Z.of_nat (length content) ≤ MAX_SAFE_INTEGER →
  0 ≤ n < Z.of_nat (length content) →
  let hdr := "bytes=" +:+ to_string (Num n) +:+ "-" in
  range_start (range_parts hdr) = Num n ∧
  range_end (range_parts hdr) (Z.of_nat (length content))
    = Num (Z.of_nat (length content) - 1) ∧
  ∃ r,
    stream_recording env id (Some hdr) w = (Responded r, w) ∧
    status r = 206 ∧
    body r = Bytes (drop (Z.to_nat n) content) ∧
    header "Content-Range" (headers r) =
      Some ("bytes " +:+ to_string (Num n) +:+ "-"
              +:+ to_string (Num (Z.of_nat (length content) - 1))
              +:+ "/" +:+ to_string (Num (Z.of_nat (length content)))).
Proof.
  intros Hsel Hrow Hfile Hmax Hn hdr. subst hdr.
  set (total := Z.of_nat (length content)) in *.
  rewrite (to_string_nonneg n) by lia.
  assert (Hp : range_parts ("bytes=" +:+ dec n +:+ "-") = [dec n; EmptyString]).
  { apply (range_parts_pair (dec n) EmptyString); [apply dec_no_dash; lia | reflexivity]. }
  assert (Hs : range_start (range_parts ("bytes=" +:+ dec n +:+ "-")) = Num n).
  { rewrite Hp. apply parseInt_dec; lia. }
  assert (He : range_end (range_parts ("bytes=" +:+ dec n +:+ "-")) total
               = Num (total - 1)).
  { rewrite Hp. reflexivity. }
  split; [exact Hs|]. split; [exact He|].
  exists (partial_response n (total - 1) total content).
  split; [|repeat split].
  - apply (stream_range_ok env w id row); try assumption; try lia. reflexivity.
  - simpl. unfold byte_range. f_equal. apply take_ge. rewrite length_drop.
    subst total. lia.
  - rewrite <- (to_string_nonneg n) by lia. reflexivity.
Qed.

Lemma stream_open_ended_range_witness :
  range_start (range_parts "bytes=7-") = Num 7 ∧
  range_end (range_parts "bytes=7-") 10 = Num 9 ∧
  ∃ r,
    stream_recording calm 1 (Some "bytes=7-") one_clip = (Responded r, one_clip) ∧
    status r = 206 ∧
    body r = Bytes (String.list_byte_of_string "789") ∧
    header "Content-Range" (headers r) = Some "bytes 7-9/10".
Proof.
  apply (stream_open_ended_range calm one_clip 1
           {| filename := "clip.webm";
              filepath := "/srv/uploads/1700000000000-k3j9x0a2b.webm";
              filesize := 10;
              createdAt := "2024-01-01 00:00:00" |} digits10 7).
  - reflexivity.
  - vm_compute. reflexivity.
  - vm_compute. reflexivity.
  - unfold MAX_SAFE_INTEGER. simpl. lia.
  - simpl. lia.
Defined.

(** C10 (suffix form).  For a header [bytes=-N] the text before the first
    ["-"] is empty, [parseInt] of it is [NaN], so the start offset is not
    an integer; no suffix range is served: the stream constructor rejects
    the offset and the handler answers nothing, neither the last [N] bytes
    nor a 416. *)
Theorem suffix_range_not_served env w id row content (n : string) :
  select_fails env = false →
  table w !! id = Some row →
  disk w !! filepath row = Some content →
  let hdr := "bytes=-" +:+ n in
  range_parts hdr !! 0%nat = Some EmptyString ∧
  parseInt EmptyString = NaN ∧
  range_start (range_parts hdr) = NaN ∧
  stream_recording env id (Some hdr) w = (Threw "ERR_OUT_OF_RANGE", w).
Proof.
  intros Hsel Hrow Hfile hdr. subst hdr.
  assert (Hp : range_parts ("bytes=-" +:+ n) = EmptyString :: split "-" n)
    by reflexivity.
  repeat split; try (rewrite Hp; reflexivity).
  apply (stream_range_throws env w id row content); try assumption; reflexivity.
Qed.

Lemma suffix_range_not_served_witness :
  range_parts "bytes=-3" !! 0%nat = Some EmptyString ∧
  parseInt EmptyString = NaN ∧
  range_start (range_parts "bytes=-3") = NaN ∧
  stream_recording calm 1 (Some "bytes=-3") one_clip
    = (Threw "ERR_OUT_OF_RANGE", one_clip).
Proof.
  apply (suffix_range_not_served calm one_clip 1
           {| filename := "clip.webm";
              filepath := "/srv/uploads/1700000000000-k3j9x0a2b.webm";
              filesize := 10;
              createdAt := "2024-01-01 00:00:00" |} digits10 "3").
  - reflexivity.
  - vm_compute. reflexivity.
  - vm_compute. reflexivity.
Defined.

End RangeClaims.

Section StorageKeyClaims.
Import JsString JsNumber Server.

Lemma base36_plain c : is_base36 c = true → not_char "." c = true.
Proof.
  destruct c as [[] [] [] [] [] [] [] []]; intros H; try discriminate H; reflexivity.
Qed.

(** The token cut from a well-formed draw has no dot, and determines the
    draw. *)
Lemma token_free r :
  base36_fraction r = true → all (not_char ".") (slice_from 2 r) = true.
Proof.
  destruct r as [|c0 [|c1 ds]]; try discriminate.
  - intros _. reflexivity.
  - intros H. simpl. unfold base36_fraction in H.
    destruct c0 as [[] [] [] [] [] [] [] []]; try discriminate H.
    destruct c1 as [[] [] [] [] [] [] [] []]; try discriminate H.
    apply andb_true_iff in H as [_ H]. revert H. apply all_impl, base36_plain.
Qed.

Lemma token_inj r1 r2 :
  base36_fraction r1 = true → base36_fraction r2 = true →
  slice_from 2 r1 = slice_from 2 r2 → r1 = r2.
Proof.
  assert (shape : ∀ r, base36_fraction r = true →
            (r = "0" ∧ slice_from 2 r = EmptyString) ∨
            (r = "0." +:+ slice_from 2 r ∧ truthy (slice_from 2 r) = true)).
  { intros [|c0 [|c1 ds]]; try discriminate; unfold base36_fraction;
      destruct c0 as [[] [] [] [] [] [] [] []]; try discriminate.
    - intros _. left. split; reflexivity.
    - destruct c1 as [[] [] [] [] [] [] [] []]; try discriminate.
      intros [H _]%andb_true_iff. right. split; [reflexivity | exact H]. }
  intros H1 H2 E.
  destruct (shape r1 H1) as [[-> T1] | [-> T1]], (shape r2 H2) as [[-> T2] | [-> T2]].
  - reflexivity.
  - rewrite <- E in T2. discriminate T2.
  - rewrite E in T1. discriminate T1.
  - f_equal. exact E.
Qed.

(** The decimal text before the first separator determines the number. *)
Lemma to_string_dash_inj a b x y :
  to_string (Num a) +:+ String "-" x = to_string (Num b) +:+ String "-" y →
  a = b ∧ x = y.
Proof.
  assert (mixed : ∀ n u v, 0 ≤ n → String "-" u ≠ dec n +:+ v).
  { intros n u v Hn E. destruct (dec_spec n Hn) as (_ & Hs & _).
    destruct (dec n) as [|c r]; [discriminate Hs|].
    simpl in E, Hs. injection E as <- _. discriminate Hs. }
  assert (same : ∀ n m u v, 0 ≤ n → 0 ≤ m →
            dec n +:+ String "-" u = dec m +:+ String "-" v → n = m ∧ u = v).
  { intros n m u v Hn Hm E.
    destruct (app_sep_inj "-" _ _ _ _ (dec_no_dash n Hn) (dec_no_dash m Hm) E)
      as [E1 E2].
    split; [now apply dec_inj | exact E2]. }
  unfold to_string.
  destruct (Z.ltb_spec a 0) as [Ha | Ha], (Z.ltb_spec b 0) as [Hb | Hb]; simpl; intros E.
  - injection E as E. destruct (same (- a) (- b) x y) as [E1 E2]; [lia | lia | exact E |].
    split; [lia | exact E2].
  - exfalso. eapply (mixed b); [exact Hb | exact E].
  - exfalso. eapply (mixed a); [exact Ha | symmetry; exact E].
  - now apply same.
Qed.

(** C5, as stated, fails: two different uploads that read the same clock
    value and receive the same random draw are stored under the same
    name. *)
Lemma storage_filename_collision_counterexample :
  {| originalname := "a.webm"; data := [x00%byte] |}
    ≠ {| originalname := "b.webm"; data := [x01%byte] |} ∧
  storage_filename 1700000000000 "0.k3j9x0a2b" "a.webm"
    = storage_filename 1700000000000 "0.k3j9x0a2b" "b.webm" ∧
  ¬ (∀ now1 rnd1 orig1 now2 rnd2 orig2,
       storage_filename now1 rnd1 orig1 ≠ storage_filename now2 rnd2 orig2).
Proof.
  split; [discriminate|]. split; [vm_compute; reflexivity|].
  intros H. apply (H 1700000000000 "0.k3j9x0a2b" "a.webm"
                     1700000000000 "0.k3j9x0a2b" "b.webm").
  vm_compute. reflexivity.
Qed.

(** C5, amended.  Two generated names are equal exactly when the two
    ingests read the same clock value, received the same random draw and
    have the same extension: ingests that differ in the clock value or in
    the draw never collide; the same millisecond together with the same
    draw does. *)
Theorem storage_filename_equal_iff now1 rnd1 orig1 now2 rnd2 orig2 :
  base36_fraction rnd1 = true → base36_fraction rnd2 = true →
  storage_filename now1 rnd1 orig1 = storage_filename now2 rnd2 orig2 ↔
  now1 = now2 ∧ rnd1 = rnd2 ∧ storage_ext orig1 = storage_ext orig2.
Proof.
  intros H1 H2. split.
  - unfold storage_filename.
    change ("-" +:+ ?z) with (String "-" z).
    intros E. apply to_string_dash_inj in E as [-> E].
    destruct (storage_ext_head orig1) as [e1 X1], (storage_ext_head orig2) as [e2 X2].
    rewrite X1, X2 in *.
    destruct (app_sep_inj "." _ _ _ _ (token_free _ H1) (token_free _ H2) E) as [T ->].
    repeat split. now apply token_inj.
  - intros (-> & -> & E). unfold storage_filename. now rewrite E.
Qed.

Lemma storage_filename_equal_iff_witness :
  storage_filename 1700000000000 "0.k3j9x0a2b" "a.webm"
    = storage_filename 1700000000001 "0.k3j9x0a2b" "a.webm" ↔
  1700000000000 = 1700000000001 ∧ "0.k3j9x0a2b" = "0.k3j9x0a2b" ∧
  storage_ext "a.webm" = storage_ext "a.webm".
Proof.
  apply (storage_filename_equal_iff 1700000000000 "0.k3j9x0a2b" "a.webm"
           1700000000001 "0.k3j9x0a2b" "a.webm"); reflexivity.
Defined.

End StorageKeyClaims.

Section StoreClaims.
Import JsString JsNumber NodeFs Server.


(** C8 (stale row).  When the row exists and its file does not, retrieve
    answers 404 "File missing on server" and changes nothing: the stale
    row stays in the table. *)
Theorem stream_missing_file env w id row range :
  select_fails env = false →
  table w !! id = Some row →
  disk w !! filepath row = None →
  ∃ w',
    stream_recording env id range w
      = (json 404 (JsonError "File missing on server"), w') ∧
    w' = w ∧
    table w' !! id = Some row.
Proof.
  intros Hsel Hrow Hfile. exists w. split; [|split; [reflexivity | exact Hrow]].
  found_row Hsel Hrow. unfold existsSync. rewrite Hfile.
  rewrite bool_decide_eq_false_2 by (intros [? ?]; discriminate).
  reflexivity.
Qed.

Lemma stream_missing_file_witness :
  ∃ w',
    stream_recording calm 1 (Some "bytes=0-3") stale_clip
      = (json 404 (JsonError "File missing on server"), w') ∧
    w' = stale_clip ∧
    table w' !! 1 =
      Some {| filename := "clip.webm";
              filepath := "/srv/uploads/1700000000000-k3j9x0a2b.webm";
              filesize := 10;
              createdAt := "2024-01-01 00:00:00" |}.
Proof.
  apply (stream_missing_file calm stale_clip 1).
  - reflexivity.
  - vm_compute. reflexivity.
  - vm_compute. reflexivity.
Defined.

(** C6 (failed unlink).  When the row exists and [fs.unlink] reports an
    error whose code is not [ENOENT], delete answers 500 "Failed to delete
    file" and returns before the table is touched: the state, and with it
    the row, is unchanged, whatever the table would have answered. *)
Theorem delete_unlink_failure_keeps_row env w id row code :
  select_fails env = false →
  table w !! id = Some row →
  (unlink (unlink_fault env) (filepath row) w).1 = Some code →
  code ≠ "ENOENT" →
  ∃ w',
    delete_recording env id w = (json 500 (JsonError "Failed to delete file"), w') ∧
    w' = w ∧
    table w' !! id = Some row.
Proof.
  intros Hsel Hrow Hun Hcode. exists w. split; [|split; [reflexivity | exact Hrow]].
  found_row Hsel Hrow. unfold unlink in *. destruct (disk w !! filepath row) as [c|].
  - destruct (unlink_fault env) as [code'|]; [|discriminate Hun].
    simpl in Hun. injection Hun as ->. unfold unlink_failed.
    destruct (String.eqb_spec code "ENOENT"); [contradiction | reflexivity].
  - simpl in Hun. injection Hun as <-. contradiction.
Qed.

Lemma delete_unlink_failure_keeps_row_witness :
  ∃ w', delete_recording
    {| select_fails := false; write_fails := false; unlink_fault := Some "EACCES";
       clock_ms := 0; random36 := "0"; db_now := ""; iso_now := "" |} 1 one_clip
    = (json 500 (JsonError "Failed to delete file"), w') ∧
  w' = one_clip ∧
  table w' !! 1 =
    Some {| filename := "clip.webm";
            filepath := "/srv/uploads/1700000000000-k3j9x0a2b.webm";
            filesize := 10;
            createdAt := "2024-01-01 00:00:00" |}.
Proof.
  apply (delete_unlink_failure_keeps_row _ one_clip 1 _ "EACCES").
  - reflexivity.
  - vm_compute. reflexivity.
  - vm_compute. reflexivity.
  - discriminate.
Defined.

(** C7 (file already gone).  When the row exists and its file does not,
    [fs.unlink] reports [ENOENT], which delete does not count as a failure:
    the row is removed and the answer is 200 "Deleted" (the table's own
    delete not failing). *)
Theorem delete_missing_file_succeeds env w id row :
  select_fails env = false →
  write_fails env = false →
  table w !! id = Some row →
  disk w !! filepath row = None →
  ∃ w',
    delete_recording env id w = (json 200 (JsonMessage "Deleted"), w') ∧
    table w' = delete id (table w) ∧
    table w' !! id = None ∧
    (unlink (unlink_fault env) (filepath row) w).1 = Some "ENOENT".
Proof.
  intros Hsel Hwr Hrow Hfile.
  exists {| table := delete id (table w); seq := seq w; disk := disk w |}.
  found_row Hsel Hrow. unfold Sqlite.delete_row, unlink.
  rewrite Hfile, Hwr. cbn.
  repeat split. apply lookup_delete_eq.
Qed.

Lemma delete_missing_file_succeeds_witness :
  ∃ w',
    delete_recording calm 1 stale_clip = (json 200 (JsonMessage "Deleted"), w') ∧
    table w' = delete 1 (table stale_clip) ∧
    table w' !! 1 = None ∧
    (unlink (unlink_fault calm) "/srv/uploads/1700000000000-k3j9x0a2b.webm" stale_clip).1
      = Some "ENOENT".
Proof.
  apply (delete_missing_file_succeeds calm stale_clip 1
           {| filename := "clip.webm";
              filepath := "/srv/uploads/1700000000000-k3j9x0a2b.webm";
              filesize := 10;
              createdAt := "2024-01-01 00:00:00" |}).
  - reflexivity.
  - reflexivity.
  - vm_compute. reflexivity.
  - vm_compute. reflexivity.
Defined.

End StoreClaims.

Section ListClaims.
Import JsString Server.

#[local] Instance id_desc_total : Total Sqlite.id_desc.
Proof. intros a b. unfold Sqlite.id_desc. lia. Qed.

#[local] Instance id_desc_trans : Transitive Sqlite.id_desc.
Proof. intros a b c. unfold Sqlite.id_desc. lia. Qed.

(** Keys that do not repeat turn a descending order into a strictly
    descending one. *)
Lemma strictly_descending (l : list (Z * Row)) :
  NoDup (l.*1) → StronglySorted Sqlite.id_desc l →
  StronglySorted (λ a b, b.1 < a.1) l.
Proof.
  induction l as [|x l IH]; intros Hnd Hs; [constructor|].
  rewrite fmap_cons in Hnd. apply NoDup_cons in Hnd as [Hx Hnd].
  apply StronglySorted_inv in Hs as [Hs Hall].
  constructor; [now apply IH|].
  rewrite Forall_forall in *. intros y Hy.
  specialize (Hall y Hy). unfold Sqlite.id_desc in Hall.
  assert (y.1 ≠ x.1); [|lia].
  intros E. apply Hx. rewrite <- E. now apply list_elem_of_fmap_2.
Qed.

(** The answer of [SELECT ... ORDER BY id DESC]: every row of the table,
    once, by strictly descending id. *)
Lemma all_rows_descending w :
  ∃ l, Sqlite.all false w = Ok l ∧
       l ≡ₚ map_to_list (table w) ∧
       StronglySorted (λ a b, b.1 < a.1) l.
Proof.
  exists (merge_sort Sqlite.id_desc (map_to_list (table w))).
  split; [reflexivity|]. split; [apply merge_sort_Permutation|].
  apply strictly_descending.
  - rewrite merge_sort_Permutation. apply NoDup_fst_map_to_list.
  - apply StronglySorted_merge_sort; apply _.
Qed.

(** C9 (listing).  When the table answers, list returns one element for
    every row of the table and no other, by strictly descending id (newest
    first); the [filepath] of each element is the base name of the stored
    path, the other fields are those of the row; no [filepath] contains a
    path separator; and the base name of a file stored in a directory is
    the name of the file alone. *)
Theorem list_newest_first_basenames env w :
  select_fails env = false →
  ∃ rows,
    list_recordings env w = (json 200 (JsonRecordings rows), w) ∧
    StronglySorted (λ a b, rv_id b < rv_id a) rows ∧
    (∀ id row, table w !! id = Some row →
       {| rv_id := id; rv_filename := filename row;
          rv_filepath := NodePath.basename (filepath row);
          rv_filesize := filesize row; rv_createdAt := createdAt row |} ∈ rows) ∧
    (∀ v, v ∈ rows →
       ∃ row, table w !! rv_id v = Some row ∧
              rv_filename v = filename row ∧
              rv_filepath v = NodePath.basename (filepath row) ∧
              rv_filesize v = filesize row ∧
              rv_createdAt v = createdAt row) ∧
    (∀ v, v ∈ rows → all (not_char "/") (rv_filepath v) = true) ∧
    (∀ dir name, truthy name = true → all (not_char "/") name = true →
       NodePath.basename (NodePath.join dir name) = name).
Proof.
  intros Hsel. destruct (all_rows_descending w) as (l & Hall & Hperm & Hsorted).
  exists (sanitize <$> l). unfold list_recordings. rewrite Hsel, Hall.
  split; [reflexivity|]. split; [|split; [|split; [|split]]].
  - revert Hsorted. apply StronglySorted_fmap. auto.
  - intros id row Hrow. apply elem_of_map_to_list in Hrow.
    rewrite <- Hperm in Hrow.
    apply (list_elem_of_fmap_2 sanitize) in Hrow. exact Hrow.
  - intros v Hv. apply list_elem_of_fmap in Hv as ([id row] & -> & Hin).
    rewrite Hperm in Hin. apply elem_of_map_to_list in Hin.
    exists row. simpl. repeat split. exact Hin.
  - intros v Hv. apply list_elem_of_fmap in Hv as ([id row] & -> & _).
    simpl. apply basename_no_slash.
  - intros dir name. apply basename_join.
Qed.

Lemma list_newest_first_basenames_witness :
  ∃ rows,
    list_recordings calm one_clip = (json 200 (JsonRecordings rows), one_clip) ∧
    StronglySorted (λ a b, rv_id b < rv_id a) rows ∧
    (∀ id row, table one_clip !! id = Some row →
       {| rv_id := id; rv_filename := filename row;
          rv_filepath := NodePath.basename (filepath row);
          rv_filesize := filesize row; rv_createdAt := createdAt row |} ∈ rows) ∧
    (∀ v, v ∈ rows →
       ∃ row, table one_clip !! rv_id v = Some row ∧
              rv_filename v = filename row ∧
              rv_filepath v = NodePath.basename (filepath row) ∧
              rv_filesize v = filesize row ∧
              rv_createdAt v = createdAt row) ∧
    (∀ v, v ∈ rows → all (not_char "/") (rv_filepath v) = true) ∧
    (∀ dir name, truthy name = true → all (not_char "/") name = true →
       NodePath.basename (NodePath.join dir name) = name).
Proof.
  apply (list_newest_first_basenames calm one_clip). reflexivity.
Defined.

End ListClaims.

(** * Further properties of the handlers *)

Section LookupEdges.
Import JsString JsNumber NodeFs Server.

(** X1.  An id that the table does not hold: retrieve and delete both
    answer 404 "Recording not found" and change nothing; in particular
    delete unlinks no file. *)
Theorem unknown_id_not_found env w id range :
  select_fails env = false →
  table w !! id = None →
  stream_recording env id range w
    = (json 404 (JsonError "Recording not found"), w) ∧
  delete_recording env id w
    = (json 404 (JsonError "Recording not found"), w).
Proof.
  intros Hsel Hrow. unfold stream_recording, delete_recording, Sqlite.get.
  rewrite Hsel, Hrow. split; reflexivity.
Qed.

Lemma unknown_id_not_found_witness :
  stream_recording calm 9999 (Some "bytes=0-1") one_clip
    = (json 404 (JsonError "Recording not found"), one_clip) ∧
  delete_recording calm 9999 one_clip
    = (json 404 (JsonError "Recording not found"), one_clip).
Proof.
  apply (unknown_id_not_found calm one_clip 9999 (Some "bytes=0-1")).
  - reflexivity.
  - vm_compute. reflexivity.
Defined.

(** X2.  When the lookup itself fails, list, retrieve and delete answer
    500 "DB error" and change nothing; delete has not touched the file. *)
Theorem lookup_error_answers_500 env w id range :
  select_fails env = true →
  list_recordings env w = (json 500 (JsonError "DB error"), w) ∧
  stream_recording env id range w = (json 500 (JsonError "DB error"), w) ∧
  delete_recording env id w = (json 500 (JsonError "DB error"), w).
Proof.
  intros Hsel.
  unfold list_recordings, stream_recording, delete_recording, Sqlite.all, Sqlite.get.
  rewrite Hsel. repeat split.
Qed.

Lemma lookup_error_answers_500_witness :
  list_recordings select_down one_clip = (json 500 (JsonError "DB error"), one_clip) ∧
  stream_recording select_down 1 None one_clip
    = (json 500 (JsonError "DB error"), one_clip) ∧
  delete_recording select_down 1 one_clip
    = (json 500 (JsonError "DB error"), one_clip).
Proof.
  apply (lookup_error_answers_500 select_down one_clip 1 None). reflexivity.
Defined.

(** X3.  Retrieve and list never change the state, whatever they are
    asked and whatever they answer; and retrieve answers 200 only without
    a (non-empty) [Range] header, 206 only with one, and otherwise 404 or
    500. *)
Theorem reads_change_nothing env id range w :
  (stream_recording env id range w).2 = w ∧
  (list_recordings env w).2 = w ∧
  ∀ r, (stream_recording env id range w).1 = Responded r →
       (status r = 200 ∧ given range = None) ∨
       (status r = 206 ∧ ∃ h, given range = Some h) ∨
       status r = 404 ∨ status r = 500.
Proof.
  split; [|split].
  - unfold stream_recording. repeat case_match; reflexivity.
  - unfold list_recordings. repeat case_match; reflexivity.
  - intros r. unfold stream_recording, json.
    repeat case_match; simpl; intros [= <-]; simpl; eauto 6.
Qed.

End LookupEdges.

Section RangeEdges.
Import JsString JsNumber NodeFs Server.

(** How [bytes=<start>-<end>] is read, for decimal [start] and [end]. *)
Lemma closed_range_read start end_ total :
  0 ≤ start ≤ MAX_SAFE_INTEGER → 0 ≤ end_ ≤ MAX_SAFE_INTEGER →
  let hdr := "bytes=" +:+ to_string (Num start) +:+ "-" +:+ to_string (Num end_) in
  range_start (range_parts hdr) = Num start ∧
  range_end (range_parts hdr) total = Num end_.
Proof.
  intros Hs He hdr. subst hdr. rewrite !to_string_nonneg by lia.
  rewrite range_parts_pair by (apply dec_no_dash; lia). split.
  - apply parseInt_dec; lia.
  - unfold range_end. simpl lookup. cbv iota. rewrite dec_truthy by lia.
    apply parseInt_dec; lia.
Qed.

(** How [bytes=<start>-] is read. *)
Lemma open_range_read start total :
  0 ≤ start →
  let hdr := "bytes=" +:+ to_string (Num start) +:+ "-" in
  range_start (range_parts hdr) = of_integer start ∧
  range_end (range_parts hdr) total = Num (total - 1).
Proof.
  intros Hs hdr. subst hdr. rewrite to_string_nonneg by lia.
  assert (Hp : range_parts ("bytes=" +:+ dec start +:+ "-") = [dec start; EmptyString]).
  { apply (range_parts_pair (dec start) EmptyString);
      [apply dec_no_dash; lia | reflexivity]. }
  rewrite Hp. split; [apply parseInt_dec_any; lia | reflexivity].
Qed.

Lemma given_truthy h : truthy h = true → given (Some h) = Some h.
Proof. intros H. unfold given. now rewrite H. Qed.




(** X5.  A range that ends at or after the end of the file is not cut to
    the file: the answer is 206 with [Content-Length] [end - start + 1] and
    [Content-Range] naming [end] as asked, while the body holds only the
    bytes from [start] to the end of the file (none when [start] is beyond
    it), which are fewer than announced. *)
Theorem range_past_end_overstates_length env w id row content start end_ :
  select_fails env = false →
  table w !! id = Some row →
  disk w !! filepath row = Some content →
  0 ≤ start ≤ end_ → end_ ≤ MAX_SAFE_INTEGER →
  Z.of_nat (length content) ≤ end_ →
  ∃ r data,
    stream_recording env id
      (Some ("bytes=" +:+ to_string (Num start) +:+ "-" +:+ to_string (Num end_))) w
      = (Responded r, w) ∧
    status r = 206 ∧
    body r = Bytes data ∧
    data = drop (Z.to_nat start) content ∧
    header "Content-Length" (headers r) = Some (to_string (Num (end_ - start + 1))) ∧
    Z.of_nat (length data) < end_ - start + 1.
Proof.
  intros Hsel Hrow Hfile Hse Hmax Hpast.
  destruct (closed_range_read start end_ (Z.of_nat (length content))) as [Hs He];
    [lia | lia |].
  exists (partial_response start end_ (Z.of_nat (length content)) content),
    (byte_range content start end_).
  assert (Hdata : byte_range content start end_ = drop (Z.to_nat start) content).
  { unfold byte_range. apply take_ge. rewrite length_drop. lia. }
  split; [|repeat split; try exact Hdata].
  - apply (stream_range_ok env w id row); try assumption.
    apply given_truthy. reflexivity.
  - rewrite Hdata, length_drop. lia.
Qed.

Lemma range_past_end_overstates_length_witness :
  ∃ r data,
    stream_recording calm 1 (Some "bytes=8-99") one_clip = (Responded r, one_clip) ∧
    status r = 206 ∧
    body r = Bytes data ∧
    data = drop (Z.to_nat 8) digits10 ∧
    header "Content-Length" (headers r) = Some "92" ∧
    Z.of_nat (length data) < 99 - 8 + 1.
Proof.
  apply (range_past_end_overstates_length calm one_clip 1 clip_row digits10 8 99).
  - reflexivity.
  - vm_compute. reflexivity.
  - vm_compute. reflexivity.
  - lia.
  - unfold MAX_SAFE_INTEGER. simpl. lia.
  - simpl. lia.
Defined.

(** X6.  An open range that starts at or after the end of the file,
    [bytes=N-] with [N >= length content] (so also [bytes=0-] on an empty
    file), is read as [end = length content - 1 < start]: the stream
    constructor throws and nothing is answered. *)
Theorem open_range_at_end_throws env w id row content n :
  select_fails env = false →
  table w !! id = Some row →
  disk w !! filepath row = Some content →
  0 ≤ n → Z.of_nat (length content) ≤ n →
  stream_recording env id (Some ("bytes=" +:+ to_string (Num n) +:+ "-")) w
    = (Threw "ERR_OUT_OF_RANGE", w).
Proof.
  intros Hsel Hrow Hfile Hn Hpast.
  destruct (open_range_read n (Z.of_nat (length content)) Hn) as [Hs He].
  apply (stream_range_throws env w id row content); try assumption.
  - apply given_truthy. reflexivity.
  - rewrite Hs, He.
    destruct (Z_le_gt_dec n MAX_SAFE_INTEGER) as [Hsafe | Hbig].
    + rewrite of_integer_finite by (unfold MAX_SAFE_INTEGER in Hsafe; lia).
      unfold createReadStream, valid_position.
      destruct (Z.leb_spec n (Z.of_nat (length content) - 1)); [lia|].
      rewrite !andb_false_r. now destruct (_ && _).
    + destruct (of_integer_unsafe n) as [-> | (k & -> & Hk)]; [lia | reflexivity |].
      unfold createReadStream, valid_position.
      destruct (Z.leb_spec k MAX_SAFE_INTEGER); [lia|].
      rewrite andb_false_r. reflexivity.
Qed.

Lemma open_range_at_end_throws_witness :
  stream_recording calm 1 (Some "bytes=10-") one_clip
    = (Threw "ERR_OUT_OF_RANGE", one_clip).
Proof.
  apply (open_range_at_end_throws calm one_clip 1 clip_row digits10 10).
  - reflexivity.
  - vm_compute. reflexivity.
  - vm_compute. reflexivity.
  - lia.
  - simpl. lia.
Defined.

End RangeEdges.

Section RangeUnit.
Import JsString JsNumber NodeFs Server.

Lemma remove_first_absent h :
  all (not_char "b") h = true → remove_first "bytes=" h = h.
Proof.
  induction h as [|c h IH]; [reflexivity|].
  cbn [all remove_first starts_with]. unfold not_char at 1.
  intros [Hc Hh]%andb_true_iff.
  apply negb_true_iff in Hc. rewrite Hc. cbn [andb].
  now rewrite (IH Hh).
Qed.

(** Retrieve looks at a non-empty header only through its parts. *)
Lemma stream_reads_parts env id h1 h2 w :
  truthy h1 = true → truthy h2 = true →
  range_parts h1 = range_parts h2 →
  stream_recording env id (Some h1) w = stream_recording env id (Some h2) w.
Proof.
  intros H1 H2 E. unfold stream_recording.
  rewrite (given_truthy h1 H1), (given_truthy h2 H2). cbv zeta. now rewrite E.
Qed.

Lemma digit_not_b c : is_digit c = true → not_char "b" c = true.
Proof.
  destruct c as [[] [] [] [] [] [] [] []]; intros H; try discriminate H; reflexivity.
Qed.

(** X7.  The unit of the header is not checked: ["bytes="] is removed
    where it is written and nothing requires it, so the header
    [start-end] without a unit is served exactly like [bytes=start-end]. *)
Theorem range_unit_is_optional env id w start end_ :
  0 ≤ start → 0 ≤ end_ →
  stream_recording env id
    (Some (to_string (Num start) +:+ "-" +:+ to_string (Num end_))) w
  = stream_recording env id
      (Some ("bytes=" +:+ to_string (Num start) +:+ "-" +:+ to_string (Num end_))) w.
Proof.
  intros Hs He. rewrite !to_string_nonneg by lia.
  destruct (dec_spec start Hs) as (As & Ss & _), (dec_spec end_ He) as (Ae & _ & _).
  apply stream_reads_parts.
  - destruct (dec start); [discriminate Ss | reflexivity].
  - reflexivity.
  - unfold range_parts. rewrite remove_first_bytes. f_equal.
    apply remove_first_absent. rewrite all_app. simpl.
    rewrite (all_impl _ _ _ digit_not_b As), (all_impl _ _ _ digit_not_b Ae).
    reflexivity.
Qed.

Lemma range_unit_is_optional_witness :
  stream_recording calm 1 (Some "2-5") one_clip
  = stream_recording calm 1 (Some "bytes=2-5") one_clip.
Proof.
  apply (range_unit_is_optional calm 1 one_clip 2 5); lia.
Defined.

End RangeUnit.

Section UploadFacts.
Import JsString JsNumber NodeFs Server.

Lemma max_id_ge (t : gmap Z Row) k row : t !! k = Some row → k ≤ Sqlite.max_id t.
Proof.
  unfold Sqlite.max_id. revert k row.
  apply (map_fold_weak_ind (λ r (m : gmap Z Row), ∀ k row, m !! k = Some row → k ≤ r)).
  - intros k row H. rewrite lookup_empty in H. discriminate H.
  - intros i x m r Hi IH k row H. rewrite lookup_insert in H.
    case_decide; [lia|]. specialize (IH k row H). lia.
Qed.

Lemma next_id_fresh w :
  seq w < next_id w ∧ table w !! next_id w = None ∧
  ∀ k row, table w !! k = Some row → k < next_id w.
Proof.
  assert (H : ∀ k row, table w !! k = Some row → k < next_id w).
  { intros k row Hk. apply max_id_ge in Hk. unfold next_id. lia. }
  split; [unfold next_id; lia|]. split; [|exact H].
  destruct (table w !! next_id w) as [row|] eqn:E; [|reflexivity].
  specialize (H _ _ E). lia.
Qed.
















End UploadFacts.

Section UploadProperties.
Import JsString JsNumber NodeFs Server.

#[local] Existing Instance id_desc_total.
#[local] Existing Instance id_desc_trans.

Lemma video_stored f : truthy (originalname f) = true → stored_by_multer (video f).
Proof. intros H. split; [reflexivity | exact H]. Qed.









(** The rows of a table by descending id are the only ordering of them
    that descends. *)
Lemma rows_by_id_unique (m : gmap Z Row) l :
  l ≡ₚ map_to_list m → StronglySorted Sqlite.id_desc l →
  merge_sort Sqlite.id_desc (map_to_list m) = l.
Proof.
  intros Hp Hs. apply (StronglySorted_unique_strong Sqlite.id_desc).
  - intros [k1 r1] [k2 r2] H1 H2 Ha Hb. unfold Sqlite.id_desc in Ha, Hb.
    simpl in Ha, Hb. assert (k1 = k2) as -> by lia.
    rewrite merge_sort_Permutation in H1. rewrite Hp in H2.
    apply elem_of_map_to_list in H1, H2. congruence.
  - apply StronglySorted_merge_sort; apply _.
  - exact Hs.
  - now rewrite merge_sort_Permutation, Hp.
Qed.





(** X21.  What multer does not store, the handler never sees as a file: a
    part without a file name is skipped, so the answer is 400 "No file
    uploaded", and a file sent in another field than ["video"] is refused
    by multer, which Express answers with status 500; in both cases
    nothing is written and no row is inserted. *)
Theorem upload_of_unstored_part dir env w pt :
  ¬ stored_by_multer pt →
  ∃ r,
    upload_recording dir env (Some pt) w = (Responded r, w) ∧
    (truthy (originalname (file pt)) = false →
       r = {| status := 400; headers := []; body := JsonError "No file uploaded" |}) ∧
    (truthy (originalname (file pt)) = true →
       r = {| status := 500; headers := []; body := ErrorPage "LIMIT_UNEXPECTED_FILE" |}).
Proof.
  intros Hno. unfold upload_recording, multer_single.
  destruct (truthy (originalname (file pt))) eqn:Hn; cbn [negb].
  - destruct (String.eqb_spec (fieldname pt) "video") as [Hf | Hf]; cbn [negb].
    + exfalso. apply Hno. split; assumption.
    + eexists. split; [reflexivity|]. split; [discriminate | reflexivity].
  - eexists. split; [reflexivity|]. split; [reflexivity | discriminate].
Qed.

Lemma upload_of_unstored_part_witness :
  ∃ r,
    upload_recording "/srv/uploads" calm
      (Some {| fieldname := "video";
               file := {| originalname := ""; data := [x00%byte] |} |}) one_clip
      = (Responded r, one_clip) ∧
    (truthy "" = false →
       r = {| status := 400; headers := []; body := JsonError "No file uploaded" |}) ∧
    (truthy "" = true →
       r = {| status := 500; headers := []; body := ErrorPage "LIMIT_UNEXPECTED_FILE" |}).
Proof.
  apply (upload_of_unstored_part "/srv/uploads" calm one_clip
           {| fieldname := "video";
              file := {| originalname := ""; data := [x00%byte] |} |}).
  intros [_ H]. discriminate H.
Defined.

End UploadProperties.

Section ExtensionProperties.
Import JsString JsNumber Server.

Lemma split_parts_all p sep s :
  all p s = true → Forall (λ x, all p x = true) (split sep s).
Proof.
  induction s as [|c s IH]; simpl; [repeat constructor|].
  intros [Hc Hs]%andb_true_iff. specialize (IH Hs).
  destruct (Ascii.eqb c sep); [constructor; [reflexivity | exact IH]|].
  destruct (split sep s) as [|x t]; inversion IH; subst;
    constructor; simpl; rewrite ?Hc; auto.
Qed.

Lemma basename_all p s : all p s = true → all p (NodePath.basename s) = true.
Proof.
  intros Hs. unfold NodePath.basename, NodePath.last_nonempty.
  destruct (last_nonempty_from (split "/" s) EmptyString) as [-> | [Hin _]];
    [reflexivity|].
  pose proof (split_parts_all p "/" s Hs) as Hall.
  rewrite Forall_forall in Hall. apply Hall, Hin.
Qed.

Lemma basename_plain s :
  truthy s = true → all (not_char "/") s = true → NodePath.basename s = s.
Proof.
  intros Hne Hfree. unfold NodePath.basename, NodePath.last_nonempty.
  rewrite (split_no_sep _ _ Hfree). simpl. destruct s; [discriminate | reflexivity].
Qed.

Lemma from_last_dot_none s :
  all (not_char ".") s = true → NodePath.from_last_dot s = None.
Proof.
  induction s as [|c s IH]; simpl; [reflexivity|].
  unfold not_char at 1. intros [Hc Hs]%andb_true_iff. rewrite (IH Hs).
  apply negb_true_iff in Hc. rewrite Ascii.eqb_sym in Hc. now rewrite Hc.
Qed.

Lemma from_last_dot_suffix stem e :
  all (not_char ".") e = true →
  NodePath.from_last_dot (stem +:+ String "." e) = Some (String "." e).
Proof.
  intros He. induction stem as [|c stem IH]; simpl.
  - now rewrite (from_last_dot_none e He).
  - now rewrite IH.
Qed.

Lemma length_append (a b : string) :
  String.length (a +:+ b) = (String.length a + String.length b)%nat.
Proof. induction a as [|c a IH]; simpl; [reflexivity | now rewrite IH]. Qed.

(** X13.  The stored name keeps the extension of the client's file name
    and falls back to [".webm"]: a name without a dot gets [".webm"], and
    a plain name [stem.ext] (no separator, [stem] and [ext] not empty, no
    dot in [ext]) gets [".ext"]. *)
Theorem storage_ext_keeps_or_defaults :
  (∀ original,
     all (not_char ".") original = true → storage_ext original = ".webm") ∧
  (∀ stem e,
     truthy stem = true → all (not_char "/") stem = true →
     truthy e = true → all (not_char "/") e = true → all (not_char ".") e = true →
     storage_ext (stem +:+ "." +:+ e) = "." +:+ e).
Proof.
  split.
  - intros original Hdot. unfold storage_ext, NodePath.extname.
    now rewrite (from_last_dot_none _ (basename_all _ _ Hdot)).
  - intros stem e Hstem Hs He Hes Hed.
    change ("." +:+ e) with (String "." e).
    assert (Hb : NodePath.basename (stem +:+ String "." e) = stem +:+ String "." e).
    { apply basename_plain.
      - destruct stem; [discriminate | reflexivity].
      - rewrite all_app, Hs. simpl. exact Hes. }
    unfold storage_ext, NodePath.extname. rewrite Hb, (from_last_dot_suffix stem e Hed).
    assert (E1 : String.eqb (String "." e) (stem +:+ String "." e) = false).
    { apply String.eqb_neq. intros E. apply (f_equal String.length) in E.
      rewrite length_append in E. destruct stem; [discriminate Hstem|].
      simpl in E. lia. }
    assert (E2 : String.eqb (stem +:+ String "." e) ".." = false).
    { apply String.eqb_neq. intros E. apply (f_equal String.length) in E.
      rewrite length_append in E.
      destruct stem; [discriminate Hstem|]. destruct e; [discriminate He|].
      simpl in E. lia. }
    rewrite E1, E2. reflexivity.
Qed.

Lemma storage_ext_keeps_or_defaults_witness :
  storage_ext "recording" = ".webm" ∧
  storage_ext ("holiday" +:+ "." +:+ "mp4") = "." +:+ "mp4".
Proof.
  split.
  - apply (proj1 storage_ext_keeps_or_defaults "recording"). reflexivity.
  - apply (proj2 storage_ext_keeps_or_defaults "holiday" "mp4"); reflexivity.
Defined.

End ExtensionProperties.

Section DeleteProperties.
Import JsString JsNumber NodeFs Server.

#[local] Existing Instance id_desc_total.
#[local] Existing Instance id_desc_trans.

(** X14.  A delete that finds the row and the file, and that nothing
    refuses, answers 200 "Deleted" and removes exactly that row and that
    file: every other row and every other file is as before, and no id is
    given back. *)
Theorem delete_removes_row_and_file env w id row content :
  select_fails env = false →
  write_fails env = false →
  unlink_fault env = None →
  table w !! id = Some row →
  disk w !! filepath row = Some content →
  ∃ w',
    delete_recording env id w = (json 200 (JsonMessage "Deleted"), w') ∧
    table w' !! id = None ∧
    disk w' !! filepath row = None ∧
    (∀ k, k ≠ id → table w' !! k = table w !! k) ∧
    (∀ p, p ≠ filepath row → disk w' !! p = disk w !! p) ∧
    seq w' = seq w.
Proof.
  intros Hsel Hwr Hun Hrow Hfile.
  exists {| table := delete id (table w); seq := seq w;
            disk := delete (filepath row) (disk w) |}.
  split.
  - found_row Hsel Hrow. unfold Sqlite.delete_row, unlink.
    rewrite Hfile, Hun, Hwr. reflexivity.
  - cbn [table disk seq]. repeat split.
    + apply lookup_delete_eq.
    + apply lookup_delete_eq.
    + intros k Hk. now apply lookup_delete_ne.
    + intros p Hp. now apply lookup_delete_ne.
Qed.

Lemma delete_removes_row_and_file_witness :
  ∃ w',
    delete_recording calm 1 one_clip = (json 200 (JsonMessage "Deleted"), w') ∧
    table w' !! 1 = None ∧
    disk w' !! filepath clip_row = None ∧
    (∀ k, k ≠ 1 → table w' !! k = table one_clip !! k) ∧
    (∀ p, p ≠ filepath clip_row → disk w' !! p = disk one_clip !! p) ∧
    seq w' = seq one_clip.
Proof.
  apply (delete_removes_row_and_file calm one_clip 1 clip_row digits10).
  - reflexivity.
  - reflexivity.
  - reflexivity.
  - vm_compute. reflexivity.
  - vm_compute. reflexivity.
Defined.

(** What an answer 200 "Deleted" says about the states before and after. *)
Lemma deleted_inv env id w w' :
  delete_recording env id w = (json 200 (JsonMessage "Deleted"), w') →
  ∃ row, table w !! id = Some row ∧ table w' = delete id (table w) ∧ seq w' = seq w.
Proof.
  unfold delete_recording, Sqlite.get, Sqlite.delete_row, unlink, json.
  destruct (select_fails env); [discriminate|].
  destruct (table w !! id) as [row|] eqn:Hrow; [|discriminate].
  cbn [snd]. intros H. exists row. split; [reflexivity|].
  destruct (disk w !! filepath row), (unlink_fault env) as [code|], (write_fails env);
    cbn in H; try destruct (String.eqb code "ENOENT"); cbn in H;
    try discriminate H; injection H as <-; split; reflexivity.
Qed.

(** X16.  When the file has been unlinked and the DELETE of the row then
    fails, delete answers 500 "Failed to delete DB record" and the row
    outlives its file: retrieve answers 404 "File missing on server" from
    then on, and a repeated delete, whose unlink now finds nothing,
    removes the row and answers 200 "Deleted". *)
Theorem failed_row_delete_is_retryable env env' w id row content range :
  select_fails env = false →
  write_fails env = true →
  unlink_fault env = None →
  table w !! id = Some row →
  disk w !! filepath row = Some content →
  select_fails env' = false →
  write_fails env' = false →
  ∃ w' w'',
    delete_recording env id w
      = (json 500 (JsonError "Failed to delete DB record"), w') ∧
    table w' !! id = Some row ∧
    disk w' !! filepath row = None ∧
    stream_recording env' id range w'
      = (json 404 (JsonError "File missing on server"), w') ∧
    delete_recording env' id w' = (json 200 (JsonMessage "Deleted"), w'') ∧
    table w'' !! id = None.
Proof.
  intros Hsel Hwr Hun Hrow Hfile Hsel' Hwr'.
  exists {| table := table w; seq := seq w; disk := delete (filepath row) (disk w) |},
    {| table := delete id (table w); seq := seq w;
       disk := delete (filepath row) (disk w) |}.
  assert (Hgone : delete (filepath row) (disk w) !! filepath row = None)
    by apply lookup_delete_eq.
  split; [|split; [exact Hrow|]; split; [exact Hgone|]; split; [|split]].
  - found_row Hsel Hrow. unfold Sqlite.delete_row, unlink.
    rewrite Hfile, Hun, Hwr. reflexivity.
  - unfold stream_recording, Sqlite.get, existsSync. cbn [table disk].
    rewrite Hsel', Hrow. cbn [snd]. rewrite Hgone.
    rewrite bool_decide_eq_false_2 by (intros [? ?]; discriminate). reflexivity.
  - unfold delete_recording, Sqlite.get, Sqlite.delete_row, unlink. cbn [table disk].
    rewrite Hsel', Hrow. cbn [snd]. rewrite Hgone, Hwr'. reflexivity.
  - apply lookup_delete_eq.
Qed.

Lemma failed_row_delete_is_retryable_witness :
  ∃ w' w'',
    delete_recording write_down 1 one_clip
      = (json 500 (JsonError "Failed to delete DB record"), w') ∧
    table w' !! 1 = Some clip_row ∧
    disk w' !! filepath clip_row = None ∧
    stream_recording calm 1 (Some "bytes=0-3") w'
      = (json 404 (JsonError "File missing on server"), w') ∧
    delete_recording calm 1 w' = (json 200 (JsonMessage "Deleted"), w'') ∧
    table w'' !! 1 = None.
Proof.
  apply (failed_row_delete_is_retryable write_down calm one_clip 1 clip_row digits10
           (Some "bytes=0-3")).
  - reflexivity.
  - reflexivity.
  - reflexivity.
  - vm_compute. reflexivity.
  - vm_compute. reflexivity.
  - reflexivity.
  - reflexivity.
Defined.

Lemma filter_all {A} (P : A → Prop) `{∀ x, Decision (P x)} (l : list A) :
  Forall P l → filter P l = l.
Proof.
  induction 1 as [|x l Hx _ IH]; [reflexivity|].
  rewrite filter_cons_True by exact Hx. now rewrite IH.
Qed.

Lemma StronglySorted_filter {A} (R : relation A) (P : A → Prop)
    `{∀ x, Decision (P x)} (l : list A) :
  StronglySorted R l → StronglySorted R (filter P l).
Proof.
  induction 1 as [|x l _ IH Hx]; [constructor|].
  rewrite filter_cons. case_decide; [|exact IH].
  constructor; [exact IH|].
  rewrite Forall_forall in *. intros y [_ Hy]%list_elem_of_filter. now apply Hx.
Qed.

Lemma sanitize_filter id (l : list (Z * Row)) :
  sanitize <$> filter (λ x, x.1 ≠ id) l
  = filter (λ v, rv_id v ≠ id) (sanitize <$> l).
Proof.
  induction l as [|x l IH]; [reflexivity|].
  rewrite fmap_cons, !filter_cons. cbn [sanitize rv_id].
  case_decide; [rewrite fmap_cons|]; now rewrite IH.
Qed.

(** X17.  After a delete that answered 200 "Deleted" the list is the list
    as it was without the element of that id, in the same order. *)
Theorem list_after_delete env env' id w w' :
  delete_recording env id w = (json 200 (JsonMessage "Deleted"), w') →
  select_fails env' = false →
  ∃ rows,
    list_recordings env' w = (json 200 (JsonRecordings rows), w) ∧
    list_recordings env' w'
      = (json 200 (JsonRecordings (filter (λ v, rv_id v ≠ id) rows)), w').
Proof.
  intros Hdel Hsel. destruct (deleted_inv env id w w' Hdel) as (row & Hrow & Ht & _).
  eexists. unfold list_recordings, Sqlite.all. rewrite Hsel, Ht.
  split; [reflexivity|].
  rewrite <- sanitize_filter.
  set (L := merge_sort Sqlite.id_desc (map_to_list (table w))).
  enough (E : merge_sort Sqlite.id_desc (map_to_list (delete id (table w)))
              = filter (λ x : Z * Row, x.1 ≠ id) L) by (rewrite E; reflexivity).
  assert (Hkeep : Forall (λ x : Z * Row, x.1 ≠ id) (map_to_list (delete id (table w)))).
  { apply Forall_forall. intros [k r] Hin. apply elem_of_map_to_list in Hin.
    simpl. intros ->. rewrite lookup_delete_eq in Hin. discriminate Hin. }
  apply rows_by_id_unique.
  - unfold L. rewrite merge_sort_Permutation.
    rewrite <- (map_to_list_delete (table w) id row Hrow).
    rewrite filter_cons_False by (simpl; intros H; now apply H).
    now rewrite (filter_all _ _ Hkeep).
  - apply StronglySorted_filter. apply StronglySorted_merge_sort; apply _.
Qed.

Lemma list_after_delete_witness :
  ∃ rows,
    list_recordings calm one_clip = (json 200 (JsonRecordings rows), one_clip) ∧
    list_recordings calm (delete_recording calm 1 one_clip).2
      = (json 200 (JsonRecordings (filter (λ v, rv_id v ≠ 1) rows)),
         (delete_recording calm 1 one_clip).2).
Proof.
  apply (list_after_delete calm calm 1 one_clip).
  - vm_compute. reflexivity.
  - reflexivity.
Defined.

End DeleteProperties.

Section RunProperties.
Import JsString JsNumber NodeFs Server.

(** What an upload can do to the state: nothing, or write the file of a
    stored part and then insert its row, or not. *)
Lemma upload_effect dir env part w :
  let w' := (upload_recording dir env part w).2 in
  w' = w ∨
  ∃ pt, part = Some pt ∧
        disk w' = <[NodePath.join dir (stored_name env (file pt)) := data (file pt)]>
                    (disk w) ∧
        ((table w' = table w ∧ seq w' = seq w) ∨
         (table w' = <[next_id w := stored_row dir env (file pt)]> (table w) ∧
          seq w' = next_id w)).
Proof.
  destruct part as [pt|]; [|now left].
  unfold upload_recording, multer_single.
  destruct (truthy (originalname (file pt))) eqn:Hn; cbn [negb]; [|now left].
  destruct (String.eqb (fieldname pt) "video"); cbn [negb]; [|now left].
  right. exists pt. unfold Sqlite.insert. cbn [table seq disk].
  destruct (_ || _); cbn [snd table seq disk].
  - split; [reflexivity|]. split; [reflexivity|]. left. split; reflexivity.
  - split; [reflexivity|]. split; [reflexivity|]. right.
    unfold stored_row, stored_name, next_id.
    cbn [sf_originalname sf_filename sf_path sf_size]. split; reflexivity.
Qed.

(** What a delete can do to the state: nothing, or unlink the file of
    the row, or not, and then delete the row, or not. *)
Lemma delete_effect env id w :
  let w' := (delete_recording env id w).2 in
  w' = w ∨
  ∃ row, table w !! id = Some row ∧ seq w' = seq w ∧
         (disk w' = disk w ∨ disk w' = delete (filepath row) (disk w)) ∧
         (table w' = table w ∨ table w' = delete id (table w)).
Proof.
  unfold delete_recording, Sqlite.get, Sqlite.delete_row, unlink.
  destruct (select_fails env); [now left|].
  destruct (table w !! id) as [row|] eqn:Hrow; [|now left].
  cbn [snd]. right. exists row. split; [reflexivity|].
  destruct (disk w !! filepath row) as [c|], (unlink_fault env) as [code|];
    cbn; try destruct (String.eqb code "ENOENT"); cbn;
    destruct (write_fails env); cbn; auto.
Qed.

Lemma stream_effect env id range w : (stream_recording env id range w).2 = w.
Proof. unfold stream_recording. repeat case_match; reflexivity. Qed.

Lemma list_effect env w : (list_recordings env w).2 = w.
Proof. unfold list_recordings. now destruct (Sqlite.all _ _). Qed.

(** One request keeps the invariant and never lowers [seq]. *)
Lemma handle_keeps_keys dir env rq w :
  keys_handed_out w →
  keys_handed_out (handle dir env rq w).2 ∧ seq w ≤ seq (handle dir env rq w).2.
Proof.
  intros Hw. destruct rq as [|part|id range|id]; cbn [handle].
  - rewrite list_effect. split; [exact Hw | lia].
  - destruct (next_id_fresh w) as (Hseq & _ & _).
    destruct (upload_effect dir env part w) as [-> | (pt & _ & _ & [[Ht Hs] | [Ht Hs]])].
    + split; [exact Hw | lia].
    + split; [|lia]. intros k row. rewrite Ht, Hs. apply Hw.
    + split; [|lia]. intros k row. rewrite Ht, Hs, lookup_insert.
      case_decide; [lia|]. intros Hk. specialize (Hw _ _ Hk). lia.
  - rewrite stream_effect. split; [exact Hw | lia].
  - destruct (delete_effect env id w) as [-> | (row & _ & Hs & _ & [Ht | Ht])].
    + split; [exact Hw | lia].
    + split; [|lia]. intros k r. rewrite Ht, Hs. apply Hw.
    + split; [|lia]. intros k r. rewrite Ht, Hs, lookup_delete.
      case_decide; [discriminate|]. apply Hw.
Qed.

Lemma run_keeps_keys dir steps w :
  keys_handed_out w →
  keys_handed_out (run dir steps w) ∧ seq w ≤ seq (run dir steps w).
Proof.
  revert w. induction steps as [|[env rq] steps IH]; intros w Hw; simpl.
  - split; [exact Hw | lia].
  - destruct (handle_keeps_keys dir env rq w Hw) as [H1 H2].
    destruct (IH _ H1) as [H3 H4]. split; [exact H3 | lia].
Qed.

Lemma one_clip_keys : keys_handed_out one_clip.
Proof.
  intros k row H. unfold one_clip in *. cbn [table seq] in *.
  apply lookup_singleton_Some in H as [<- _]. lia.
Qed.

(** X18.  Through every sequence of requests, whatever fails on the way,
    every id of the table stays at or below the counter of ids handed out,
    and that counter never decreases. *)
Theorem ids_stay_handed_out dir steps w :
  keys_handed_out w →
  keys_handed_out (run dir steps w) ∧ seq w ≤ seq (run dir steps w).
Proof. apply run_keeps_keys. Qed.

Lemma ids_stay_handed_out_witness :
  keys_handed_out
    (run "/srv/uploads"
       [(calm, DeleteRecording 1); (calm, PostRecording (Some (video other_part)))]
       one_clip) ∧
  seq one_clip ≤
    seq (run "/srv/uploads"
           [(calm, DeleteRecording 1); (calm, PostRecording (Some (video other_part)))]
           one_clip).
Proof.
  apply (ids_stay_handed_out "/srv/uploads"
           [(calm, DeleteRecording 1); (calm, PostRecording (Some (video other_part)))]
           one_clip).
  exact one_clip_keys.
Defined.



(** An id that has been handed out and is not in the table stays so. *)
Lemma handle_keeps_gone dir env rq id w :
  table w !! id = None → id ≤ seq w →
  table (handle dir env rq w).2 !! id = None ∧ id ≤ seq (handle dir env rq w).2.
Proof.
  intros Hnone Hseq. destruct rq as [|part|k range|k]; cbn [handle].
  - rewrite list_effect. now split.
  - destruct (next_id_fresh w) as (Hnext & _ & _).
    destruct (upload_effect dir env part w) as [-> | (pt & _ & _ & [[Ht Hs] | [Ht Hs]])].
    + now split.
    + rewrite Ht, Hs. now split.
    + rewrite Ht, Hs. split; [|lia]. rewrite lookup_insert_ne by lia. exact Hnone.
  - rewrite stream_effect. now split.
  - destruct (delete_effect env k w) as [-> | (row & _ & Hs & _ & [Ht | Ht])].
    + now split.
    + rewrite Ht, Hs. now split.
    + rewrite Ht, Hs. split; [|exact Hseq].
      rewrite lookup_delete. case_decide; [reflexivity | exact Hnone].
Qed.

Lemma run_keeps_gone dir steps id w :
  table w !! id = None → id ≤ seq w →
  table (run dir steps w) !! id = None.
Proof.
  revert w. induction steps as [|[env rq] steps IH]; intros w Hnone Hseq; simpl.
  - exact Hnone.
  - destruct (handle_keeps_gone dir env rq id w Hnone Hseq) as [H1 H2]. now apply IH.
Qed.

(** X15.  Once a delete has answered 200 "Deleted", the id is gone for
    good: whatever requests are served afterwards, uploads included, every
    later retrieve and every later delete of it answers 404 "Recording not
    found". *)
Theorem deleted_id_is_not_found dir env env' id range w w' steps :
  keys_handed_out w →
  delete_recording env id w = (json 200 (JsonMessage "Deleted"), w') →
  select_fails env' = false →
  stream_recording env' id range (run dir steps w')
    = (json 404 (JsonError "Recording not found"), run dir steps w') ∧
  delete_recording env' id (run dir steps w')
    = (json 404 (JsonError "Recording not found"), run dir steps w').
Proof.
  intros Hw Hdel Hsel.
  destruct (deleted_inv env id w w' Hdel) as (row & Hrow & Ht & Hs).
  assert (Hnone : table (run dir steps w') !! id = None).
  { apply run_keeps_gone.
    - rewrite Ht. apply lookup_delete_eq.
    - rewrite Hs. apply (Hw _ _ Hrow). }
  unfold stream_recording, delete_recording, Sqlite.get.
  rewrite Hsel, Hnone. split; reflexivity.
Qed.

Lemma deleted_id_is_not_found_witness :
  stream_recording calm 1 None
    (run "/srv/uploads" [(later, PostRecording (Some (video other_part)))]
       (delete_recording calm 1 one_clip).2)
    = (json 404 (JsonError "Recording not found"),
       run "/srv/uploads" [(later, PostRecording (Some (video other_part)))]
         (delete_recording calm 1 one_clip).2) ∧
  delete_recording calm 1
    (run "/srv/uploads" [(later, PostRecording (Some (video other_part)))]
       (delete_recording calm 1 one_clip).2)
    = (json 404 (JsonError "Recording not found"),
       run "/srv/uploads" [(later, PostRecording (Some (video other_part)))]
         (delete_recording calm 1 one_clip).2).
Proof.
  apply (deleted_id_is_not_found "/srv/uploads" calm calm 1 None one_clip
           (delete_recording calm 1 one_clip).2
           [(later, PostRecording (Some (video other_part)))]).
  - exact one_clip_keys.
  - vm_compute. reflexivity.
  - reflexivity.
Defined.

End RunProperties.

Section RoundTrip.
Import JsString JsNumber NodeFs Server.








End RoundTrip.

Section EmptyList.
Import Server.

(** X20.  With no row in the table the list is the empty array, answered
    200 and not as an error, whatever files lie on the disk. *)
Theorem list_of_empty_table env w :
  select_fails env = false →
  table w = ∅ →
  list_recordings env w = (json 200 (JsonRecordings []), w).
Proof.
  intros Hsel Ht. unfold list_recordings, Sqlite.all.
  rewrite Hsel, Ht, map_to_list_empty. reflexivity.
Qed.

Lemma list_of_empty_table_witness :
  list_recordings calm nothing_stored = (json 200 (JsonRecordings []), nothing_stored).
Proof.
  apply (list_of_empty_table calm nothing_stored); reflexivity.
Defined.

End EmptyList.
